(** * SAP OData to MCP server: discovery engine, operation dispatcher and
    destination resolver of the hierarchical tool registry.

    The definitions below are a shallow embedding of
    [HierarchicalSAPToolRegistry] (the two-tool registry with the mapping
    table) and of [DestinationService].

    Conventions of the embedding:
    - JS strings are [string]s of bytes; [toLowerCase] and the whitespace
      class of [/\s+/] are the ASCII ones.
    - JS objects used as records from string keys to values are
      [gmap string Value], the properties of the object itself; [k in obj]
      and [obj[k]] also see what every object inherits from
      [Object.prototype]. Numbers are the safe integers
      ([Number.isSafeInteger]), which print in decimal; fractions and larger
      magnitudes are outside the embedding.
    - The relevance scores are the six literals 0.5, 0.7, 0.75, 0.85, 0.9
      and 0.95; they are kept in hundredths as [Z], so that the comparator
      [b.score - a.score] has the sign of the difference of the hundredths.
    - The SAP client and the Cloud SDK lookup are collaborators outside the
      registry: calls to them are recorded in a trace and their answers are
      taken from an oracle. *)

From Stdlib Require Import ZArith Ascii String List Bool Lia Permutation Sorted DecimalString.
From stdpp Require Import base strings gmap list pretty.

Local Open Scope string_scope.
Local Open Scope list_scope.
Local Open Scope Z_scope.

(** ** JS string primitives *)

Module JsString.

Definition lower_ascii (c : ascii) : ascii :=
  let n := nat_of_ascii c in
  if ((65 <=? n) && (n <=? 90))%nat then ascii_of_nat (n + 32) else c.

Fixpoint toLowerCase (s : string) : string :=
  match s with
  | EmptyString => EmptyString
  | String c s' => String (lower_ascii c) (toLowerCase s')
  end.

(** [text.includes(sub)] *)
Fixpoint includes (text sub : string) : bool :=
  match text with
  | EmptyString => String.prefix sub EmptyString
  | String _ text' => String.prefix sub text || includes text' sub
  end.

(** the class [\s], restricted to ASCII: space, \t, \n, \v, \f, \r *)
Definition is_space (c : ascii) : bool :=
  let n := nat_of_ascii c in
  ((n =? 32) || ((9 <=? n) && (n <=? 13)))%nat.

Fixpoint split_ws (s cur : string) : list string :=
  match s with
  | EmptyString => [cur]
  | String c s' =>
      if is_space c then cur :: split_ws s' EmptyString
      else split_ws s' (cur +:+ String c EmptyString)
  end.

(** [query.split(/\s+/).filter(w => w.length > 0)] *)
Definition words (q : string) : list string :=
  List.filter (fun w => negb (String.eqb w "")) (split_ws q "").

(** truthiness of a string *)
Definition truthy (s : string) : bool := negb (String.eqb s "").

(** [xs.join(sep)] *)
Fixpoint join (sep : string) (xs : list string) : string :=
  match xs with
  | [] => ""
  | [x] => x
  | x :: xs' => x +:+ sep +:+ join sep xs'
  end.

(** [xs.includes(x)] on an array of strings *)
Definition mem (x : string) (xs : list string) : bool :=
  existsb (String.eqb x) xs.

End JsString.

Import JsString.

(** ** Catalog data model ([sap-types]) *)

Record Property := mkProperty {
  prop_name : string;
  prop_type : string;
  prop_nullable : bool;
  prop_maxLength : option string
}.

Record EntityType := mkEntityType {
  et_name : string;
  et_entitySet : option string;
  et_keys : list string;
  et_properties : list Property;
  et_creatable : bool;
  et_updatable : bool;
  et_deletable : bool
}.

(** [svc_entityTypes] is [service.metadata?.entityTypes]: [None] when the
    metadata or its entity types are undefined. *)
Record ODataService := mkService {
  svc_id : string;
  svc_title : string;
  svc_description : string;
  svc_url : string;
  svc_entityTypes : option (list EntityType)
}.

(** ** Categorizer *)

Definition any_includes (text : string) (subs : list string) : bool :=
  existsb (includes text) subs.

Definition categorize (service : ODataService) : list string :=
  let id := toLowerCase (svc_id service) in
  let title := toLowerCase (svc_title service) in
  let desc := toLowerCase (svc_description service) in
  let categories :=
    (if any_includes id ["business_partner"; "bp_"; "customer"; "supplier"]
        || any_includes title ["business partner"; "customer"; "supplier"]
     then ["business-partner"] else []) ++
    (if any_includes id ["sales"; "order"; "quotation"; "opportunity"]
        || any_includes title ["sales"; "order"] || includes desc "sales"
     then ["sales"] else []) ++
    (if any_includes id ["finance"; "accounting"; "payment"; "invoice"; "gl_"; "ar_"; "ap_"]
        || any_includes title ["finance"; "accounting"; "payment"]
     then ["finance"] else []) ++
    (if any_includes id ["purchase"; "procurement"; "vendor"; "po_"]
        || any_includes title ["procurement"; "purchase"; "vendor"]
     then ["procurement"] else []) ++
    (if any_includes id ["employee"; "hr_"; "personnel"; "payroll"]
        || any_includes title ["employee"; "human"; "personnel"]
     then ["hr"] else []) ++
    (if any_includes id ["logistics"; "warehouse"; "inventory"; "material"; "wm_"; "mm_"]
        || any_includes title ["logistics"; "material"]
     then ["logistics"] else []) in
  match categories with
  | [] => ["all"]
  | _ => categories
  end.

(** [categorizeServices]: the map [serviceCategories], filled in catalog
    order (a later service with the same id overwrites an earlier one). *)
Definition categorizeServices (services : list ODataService) : gmap string (list string) :=
  foldl (fun m s => <[svc_id s := categorize s]> m) ∅ services.

(** ** Discovery engine *)

Inductive SearchMode := Combined | Separated.

Definition matchesQuery (text query : string) (searchMode : SearchMode) : bool :=
  if negb (truthy query) then false
  else
    let textLower := toLowerCase text in
    match searchMode with
    | Combined => includes textLower query
    | Separated =>
        match words query with
        | [] => false
        | [w] => includes textLower w
        | ws => forallb (includes textLower) ws
        end
    end.

Record Capabilities := mkCapabilities {
  cap_readable : bool;
  cap_creatable : bool;
  cap_updatable : bool;
  cap_deletable : bool
}.

Record PropertyView := mkPropertyView {
  pv_name : string;
  pv_type : string;
  pv_nullable : bool;
  pv_maxLength : option string;
  pv_isKey : bool
}.

Record EntityView := mkEntityView {
  ev_name : string;
  ev_entitySet : option string;
  ev_keyProperties : list string;
  ev_propertyCount : nat;
  ev_capabilities : Capabilities;
  ev_properties : list PropertyView
}.

Definition property_view (entity : EntityType) (prop : Property) : PropertyView :=
  {| pv_name := prop_name prop;
     pv_type := prop_type prop;
     pv_nullable := prop_nullable prop;
     pv_maxLength := prop_maxLength prop;
     pv_isKey := mem (prop_name prop) (et_keys entity) |}.

Definition entity_view (entity : EntityType) : EntityView :=
  {| ev_name := et_name entity;
     ev_entitySet := et_entitySet entity;
     ev_keyProperties := et_keys entity;
     ev_propertyCount := length (et_properties entity);
     ev_capabilities :=
       {| cap_readable := true;
          cap_creatable := et_creatable entity;
          cap_updatable := et_updatable entity;
          cap_deletable := et_deletable entity |};
     ev_properties := map (property_view entity) (et_properties entity) |}.

Inductive MatchType := TService | TEntity | TProperty.

Record ServiceRef := mkServiceRef {
  sr_id : string;
  sr_title : string;
  sr_description : option string;
  sr_entityCount : option nat;
  sr_categories : option (list string)
}.

(** A match record; [m_score] is the score in hundredths. A service match
    carries [entities], an entity or property match carries [entity]. *)
Record Match := mkMatch {
  m_type : MatchType;
  m_score : Z;
  m_service : ServiceRef;
  m_entities : option (list EntityView);
  m_entity : option EntityView;
  m_matchReason : string
}.

Section Search.

Variable discoveredServices : list ODataService.

Definition serviceCategories : gmap string (list string) :=
  categorizeServices discoveredServices.

(** [this.serviceCategories.get(service.id) || []] *)
Definition categories_of (service : ODataService) : list string :=
  default [] (serviceCategories !! svc_id service).

Definition service_match (query category : string) (serviceScore : Z)
    (service : ODataService) : Match :=
  {| m_type := TService;
     m_score := if serviceScore =? 0 then 50 else serviceScore;
     m_service :=
       {| sr_id := svc_id service;
          sr_title := svc_title service;
          sr_description := Some (svc_description service);
          sr_entityCount := Some (length (default [] (svc_entityTypes service)));
          sr_categories := Some (categories_of service) |};
     m_entities := Some (map entity_view (default [] (svc_entityTypes service)));
     m_entity := None;
     m_matchReason :=
       if 0 <? serviceScore then "Service matches '" +:+ query +:+ "'"
       else "Service in category '" +:+ category +:+ "'" |}.

(** The loop over [entity.properties]: the first matching property sets a
    zero score to 0.75, every matching property name is recorded. *)
Definition scan_properties (query : string) (searchMode : SearchMode)
    (entityScore0 : Z) (props : list Property) : Z * list string :=
  foldl (fun '(entityScore, matchedProperties) prop =>
           if matchesQuery (toLowerCase (prop_name prop)) query searchMode
           then (if entityScore =? 0 then 75 else entityScore,
                 matchedProperties ++ [prop_name prop])
           else (entityScore, matchedProperties))
        (entityScore0, []) props.

Definition entity_matches (query : string) (searchMode : SearchMode)
    (service : ODataService) (entity : EntityType) : list Match :=
  let entityScore0 :=
    if matchesQuery (toLowerCase (et_name entity)) query searchMode then 95 else 0 in
  let '(entityScore, matchedProperties) :=
    scan_properties query searchMode entityScore0 (et_properties entity) in
  if 0 <? entityScore then
    [ {| m_type := if 90 <=? entityScore then TEntity else TProperty;
         m_score := entityScore;
         m_service :=
           {| sr_id := svc_id service; sr_title := svc_title service;
              sr_description := None; sr_entityCount := None; sr_categories := None |};
         m_entities := None;
         m_entity := Some (entity_view entity);
         m_matchReason :=
           if 90 <=? entityScore
           then "Entity '" +:+ et_name entity +:+ "' matches '" +:+ query +:+ "'"
           else "Properties [" +:+ join ", " matchedProperties +:+ "] match '" +:+ query +:+ "'" |} ]
  else [].

(** One iteration of the loop over the services. *)
Definition search_service (query category : string) (searchMode : SearchMode)
    (service : ODataService) : list Match :=
  if negb (String.eqb category "all") && negb (mem category (categories_of service))
  then []
  else
    let serviceIdLower := toLowerCase (svc_id service) in
    let serviceTitleLower := toLowerCase (svc_title service) in
    let serviceDescLower := toLowerCase (svc_description service) in
    let serviceScore :=
      if truthy query then
        if matchesQuery serviceIdLower query searchMode then 90
        else if matchesQuery serviceTitleLower query searchMode then 85
        else if matchesQuery serviceDescLower query searchMode then 70
        else 0
      else 0 in
    (if (0 <? serviceScore) || negb (truthy query)
     then [service_match query category serviceScore service] else [])
    ++
    (match svc_entityTypes service with
     | Some entityTypes =>
         if truthy query
         then flat_map (entity_matches query searchMode service) entityTypes
         else []
     | None => []
     end).

Definition performCategorySearch (query category : string) (searchMode : SearchMode)
    : list Match :=
  flat_map (search_service query category searchMode) discoveredServices.

End Search.

(** ** Array primitives *)

Module JsArray.

(** [Array.prototype.sort(cmp)]: the comparator gives a number; an element
    goes before another when the comparator is negative, and elements that
    compare as equal keep their order (the sort is specified stable). The
    model is insertion from the right end. *)
Fixpoint insert_by {A} (cmp : A -> A -> Z) (x : A) (l : list A) : list A :=
  match l with
  | [] => [x]
  | y :: l' => if cmp x y <=? 0 then x :: l else y :: insert_by cmp x l'
  end.

Definition sort {A} (cmp : A -> A -> Z) (l : list A) : list A :=
  foldr (insert_by cmp) [] l.

(** [arr.slice(0, end)] for an integer [end]: a negative [end] counts from
    the end of the array. *)
Definition slice0 {A} (l : list A) (end_ : Z) : list A :=
  let len := Z.of_nat (length l) in
  let final := if end_ <? 0 then Z.max (len + end_) 0 else Z.min end_ len in
  firstn (Z.to_nat final) l.

End JsArray.

(** ** Mapping table *)

Record MappingRow := mkMappingRow {
  row_serviceId : string;
  row_serviceName : string;
  row_entityName : string;
  row_entitySet : option string;
  row_propertyName : string;
  row_propertyType : string;
  row_isKey : bool;
  row_nullable : bool;
  row_maxLength : string;
  row_capabilities : string
}.

Definition yn (b : bool) : string := if b then "Y" else "N".

Definition capabilities_text (c : Capabilities) : string :=
  "R:" +:+ yn (cap_readable c) +:+ " C:" +:+ yn (cap_creatable c) +:+
  " U:" +:+ yn (cap_updatable c) +:+ " D:" +:+ yn (cap_deletable c).

(** [prop.maxLength || 'N/A'] *)
Definition maxLength_text (m : option string) : string :=
  match m with
  | Some s => if truthy s then s else "N/A"
  | None => "N/A"
  end.

Definition entity_rows (service : ServiceRef) (entity : EntityView) : list MappingRow :=
  let capabilities := capabilities_text (ev_capabilities entity) in
  map (fun prop =>
         {| row_serviceId := sr_id service;
            row_serviceName := sr_title service;
            row_entityName := ev_name entity;
            row_entitySet := ev_entitySet entity;
            row_propertyName := pv_name prop;
            row_propertyType := pv_type prop;
            row_isKey := pv_isKey prop;
            row_nullable := pv_nullable prop;
            row_maxLength := maxLength_text (pv_maxLength prop);
            row_capabilities := capabilities |})
      (ev_properties entity).

Definition match_rows (m : Match) : list MappingRow :=
  match m_type m, m_entities m, m_entity m with
  | TService, Some entities, _ => flat_map (entity_rows (m_service m)) entities
  | TService, None, _ => []
  | _, _, Some entity => entity_rows (m_service m) entity
  | _, _, None => []
  end.

Definition convertToMappingTable (matches : list Match) : list MappingRow :=
  flat_map match_rows matches.

(** ** The discovery call *)

(** The arguments of [discover-sap-data]. [arg_limit] is an integer; the
    schema also lets through numbers with a fraction, which [slice]
    truncates. *)
Record DiscoverArgs := mkDiscoverArgs {
  arg_query : option string;
  arg_category : option string;
  arg_limit : option Z
}.

(** The input schema of the tool,
    [limit: z.number().min(1).max(20).optional()]. *)
Definition limit_schema (limit : option Z) : bool :=
  match limit with
  | None => true
  | Some n => (1 <=? n) && (n <=? 20)
  end.

(** The [logger.debug] call at the head of each fallback block. *)
Inductive DebugEvent :=
| DbgSeparated (category : string)
| DbgRetryAll (category : string)
| DbgSeparatedAll
| DbgReturnAll (query : string).

Record SearchState := mkSearchState {
  st_matches : list Match;
  st_category : string;
  st_searchMode : SearchMode;
  st_usedCategoryFallback : bool;
  st_usedSeparatedWords : bool;
  st_returnedAllServices : bool;
  st_debug : list DebugEvent
}.

Definition is_empty {A} (l : list A) : bool := (length l =? 0)%nat.

Definition validCategories : list string :=
  ["business-partner"; "sales"; "finance"; "procurement"; "hr"; "logistics"; "all"].

Record DiscoveryResult := mkDiscoveryResult {
  r_query : string;
  r_requestedCategory : string;
  r_actualCategory : string;
  r_searchMode : SearchMode;
  r_usedCategoryFallback : bool;
  r_usedSeparatedWords : bool;
  r_returnedAllServices : bool;
  r_totalFound : nat;
  r_totalProperties : nat;
  r_showing : nat;
  r_mappingTable : list MappingRow
}.

Definition dquote : string := String (ascii_of_nat 34) "".
Definition newline : string := String (ascii_of_nat 10) "".

(** The response text has two shapes: the guidance, the table and the JSON
    of the result when the table has a row, and a short notice otherwise.
    The first shape is kept as the result it prints. *)
Inductive DiscoveryText :=
| TextTable (result : DiscoveryResult)
| TextNoMatches (text : string).

Record Discovery := mkDiscovery {
  d_debug : list DebugEvent;
  d_sorted : list Match;
  d_limitedMatches : list Match;
  d_result : DiscoveryResult;
  d_text : DiscoveryText
}.

Section Discover.

Variable discoveredServices : list ODataService.

Let search := performCategorySearch discoveredServices.

(** Level 1 *)
Definition level1 (query category : string) : SearchState :=
  {| st_matches := search query category Combined;
     st_category := category;
     st_searchMode := Combined;
     st_usedCategoryFallback := false;
     st_usedSeparatedWords := false;
     st_returnedAllServices := false;
     st_debug := [] |}.

(** Level 2 *)
Definition level2 (query : string) (st : SearchState) : SearchState :=
  if is_empty (st_matches st) && truthy query && includes query " " then
    {| st_matches := search query (st_category st) Separated;
       st_category := st_category st;
       st_searchMode := Separated;
       st_usedCategoryFallback := st_usedCategoryFallback st;
       st_usedSeparatedWords := true;
       st_returnedAllServices := st_returnedAllServices st;
       st_debug := st_debug st ++ [DbgSeparated (st_category st)] |}
  else st.

(** Levels 3 and 4 *)
Definition level3 (query : string) (st : SearchState) : SearchState :=
  if is_empty (st_matches st) && negb (String.eqb (st_category st) "all") && truthy query then
    let combined := search query "all" Combined in
    if is_empty combined && includes query " " then
      {| st_matches := search query "all" Separated;
         st_category := "all";
         st_searchMode := Separated;
         st_usedCategoryFallback := true;
         st_usedSeparatedWords := true;
         st_returnedAllServices := st_returnedAllServices st;
         st_debug := st_debug st ++ [DbgRetryAll (st_category st); DbgSeparatedAll] |}
    else
      {| st_matches := combined;
         st_category := "all";
         st_searchMode := Combined;
         st_usedCategoryFallback := true;
         st_usedSeparatedWords := false;
         st_returnedAllServices := st_returnedAllServices st;
         st_debug := st_debug st ++ [DbgRetryAll (st_category st)] |}
  else st.

(** Level 5 *)
Definition level5 (query : string) (st : SearchState) : SearchState :=
  if is_empty (st_matches st) && truthy query then
    {| st_matches := search "" (st_category st) Combined;
       st_category := st_category st;
       st_searchMode := st_searchMode st;
       st_usedCategoryFallback := true;
       st_usedSeparatedWords := st_usedSeparatedWords st;
       st_returnedAllServices := true;
       st_debug := st_debug st ++ [DbgReturnAll query] |}
  else st.

(** The four tiers in order. *)
Definition run_tiers (query category : string) : SearchState :=
  level5 query (level3 query (level2 query (level1 query category))).

(** [(a, b) => b.score - a.score] *)
Definition by_score (a b : Match) : Z := m_score b - m_score a.

(** [(args.query as string)?.toLowerCase() || ""] *)
Definition query_of (args : DiscoverArgs) : string :=
  match arg_query args with Some q => toLowerCase q | None => "" end.

(** [(args.category as string)?.toLowerCase() || "all"] *)
Definition requestedCategory_of (args : DiscoverArgs) : string :=
  match arg_category args with
  | Some c => if truthy (toLowerCase c) then toLowerCase c else "all"
  | None => "all"
  end.

(** [(args.limit as number) || 10] *)
Definition limit_of (args : DiscoverArgs) : Z :=
  match arg_limit args with
  | Some n => if n =? 0 then 10 else n
  | None => 10
  end.

Definition category_of (args : DiscoverArgs) : string :=
  let requestedCategory := requestedCategory_of args in
  if mem requestedCategory validCategories then requestedCategory else "all".

Definition searchServicesAndEntities (args : DiscoverArgs) : Discovery :=
  let query := query_of args in
  let requestedCategory := requestedCategory_of args in
  let limit := limit_of args in
  let category := category_of args in
  let st := run_tiers query category in
  let matches := JsArray.sort by_score (st_matches st) in
  let totalFound := length matches in
  let limitedMatches := JsArray.slice0 matches limit in
  let mappingTable := convertToMappingTable limitedMatches in
  let result :=
    {| r_query := if truthy query then query else "all";
       r_requestedCategory := requestedCategory;
       r_actualCategory := st_category st;
       r_searchMode := st_searchMode st;
       r_usedCategoryFallback := st_usedCategoryFallback st;
       r_usedSeparatedWords := st_usedSeparatedWords st;
       r_returnedAllServices := st_returnedAllServices st;
       r_totalFound := totalFound;
       r_totalProperties := length mappingTable;
       r_showing := length limitedMatches;
       r_mappingTable := mappingTable |} in
  {| d_debug := st_debug st;
     d_sorted := matches;
     d_limitedMatches := limitedMatches;
     d_result := result;
     d_text :=
       if (0 <? length mappingTable)%nat then TextTable result
       else TextNoMatches
              ("No matches found" +:+
               (if truthy query then " for " +:+ dquote +:+ query +:+ dquote else "") +:+
               (if negb (String.eqb requestedCategory "all")
                then " in category " +:+ dquote +:+ requestedCategory +:+ dquote else "") +:+
               newline +:+ newline +:+ "== SUGGESTION ==" +:+ newline +:+
               "Try different search terms or categories: business-partner, sales, finance, procurement, hr, logistics, all") |}.

(** The tool as registered: the input schema is checked before the handler
    runs, and a call it refuses never reaches the handler. *)
Definition discover_tool (args : DiscoverArgs) : option Discovery :=
  if limit_schema (arg_limit args) then Some (searchServicesAndEntities args) else None.

End Discover.

(** The tiers, read off the debug log of a call. *)
Definition tier2_fired (d : Discovery) : bool :=
  existsb (fun e => match e with DbgSeparated _ => true | _ => false end) (d_debug d).
Definition tier3_fired (d : Discovery) : bool :=
  existsb (fun e => match e with DbgRetryAll _ => true | _ => false end) (d_debug d).
Definition tier4_fired (d : Discovery) : bool :=
  existsb (fun e => match e with DbgReturnAll _ => true | _ => false end) (d_debug d).

(** ** A sample catalog *)

Module Sample.

Definition customer : EntityType :=
  {| et_name := "Customer";
     et_entitySet := Some "Customers";
     et_keys := ["ID"];
     et_properties :=
       [ mkProperty "ID" "Edm.String" false (Some "10");
         mkProperty "Name" "Edm.String" true None;
         mkProperty "Email" "Edm.String" true None ];
     et_creatable := true;
     et_updatable := true;
     et_deletable := false |}.

Definition api_bp : ODataService :=
  {| svc_id := "API_BP";
     svc_title := "Business Partner";
     svc_description := "Business partner master data";
     svc_url := "/sap/opu/odata/sap/API_BP";
     svc_entityTypes := Some [customer] |}.

(** a service whose metadata was not loaded *)
Definition api_bare : ODataService :=
  {| svc_id := "API_BARE";
     svc_title := "Bare";
     svc_description := "No metadata";
     svc_url := "/sap/opu/odata/sap/API_BARE";
     svc_entityTypes := None |}.

Definition catalog : list ODataService := [api_bp].

End Sample.

(** ** Operation dispatcher *)

(** [Number.MAX_SAFE_INTEGER], 2^53 - 1 *)
Definition MAX_SAFE_INTEGER : Z := 9007199254740991.

(** [Number.isSafeInteger] on an integer *)
Definition isSafeInteger (n : Z) : bool :=
  (- MAX_SAFE_INTEGER <=? n) && (n <=? MAX_SAFE_INTEGER).

(** The numbers of the embedding: the integers a JS number holds exactly. *)
Record SafeInteger := mkSafeInteger {
  int_value : Z;
  int_safe : Is_true (isSafeInteger int_value)
}.

(** The values a parameter object holds. An object is a plain one, with
    the conversion to a string it inherits; a function is a built-in one,
    known by its name. Arrays are outside the embedding. *)
Inductive Value :=
| VUndefined
| VNull
| VBool (b : bool)
| VNum (n : SafeInteger)
| VStr (s : string)
| VObject
| VFunction (name : string).

(** [String(v)], which is also what a template literal prints *)
Definition js_String (v : Value) : string :=
  match v with
  | VUndefined => "undefined"
  | VNull => "null"
  | VBool true => "true"
  | VBool false => "false"
  | VNum n => pretty (int_value n)
  | VStr s => s
  | VObject => "[object Object]"
  | VFunction name => "function " +:+ name +:+ "() { [native code] }"
  end.

Definition js_truthy (v : Value) : bool :=
  match v with
  | VUndefined | VNull => false
  | VBool b => b
  | VNum n => negb (int_value n =? 0)
  | VStr s => truthy s
  | VObject => true
  | VFunction _ => true
  end.

(** The names of the properties of [Object.prototype], which every plain
    object inherits. *)
Definition object_prototype_names : list string :=
  ["constructor"; "__defineGetter__"; "__defineSetter__"; "hasOwnProperty";
   "__lookupGetter__"; "__lookupSetter__"; "isPrototypeOf"; "propertyIsEnumerable";
   "toString"; "valueOf"; "__proto__"; "toLocaleString"].

(** The value of an inherited property: [constructor] is the function
    [Object], [__proto__] reads as [Object.prototype] itself, and every
    other one is the method of its name. *)
Definition inherited (name : string) : Value :=
  if String.eqb name "constructor" then VFunction "Object"
  else if String.eqb name "__proto__" then VObject
  else VFunction name.

(** [name in obj] *)
Definition js_in (name : string) (obj : gmap string Value) : bool :=
  match obj !! name with
  | Some _ => true
  | None => mem name object_prototype_names
  end.

(** [obj[name]] *)
Definition js_get (obj : gmap string Value) (name : string) : Value :=
  match obj !! name with
  | Some v => v
  | None => if mem name object_prototype_names then inherited name else VUndefined
  end.

Record ExecuteArgs := mkExecuteArgs {
  a_serviceId : string;
  a_entityName : string;
  a_operation : string;
  a_parameters : option (gmap string Value);
  a_filterString : option string;
  a_selectString : option string;
  a_expandString : option string;
  a_orderbyString : option string;
  a_topNumber : option SafeInteger;
  a_skipNumber : option SafeInteger;
  a_queryOptions : option (gmap string Value);
  a_useUserToken : option bool
}.

(** What a throwing computation gives. *)
Inductive Thrown (A : Type) :=
| Ok (a : A)
| Throw (message : string).
Arguments Ok {A} a.
Arguments Throw {A} message.

Definition thrown_bind {A B} (m : Thrown A) (f : A -> Thrown B) : Thrown B :=
  match m with
  | Ok a => f a
  | Throw msg => Throw msg
  end.

(** [xs.map(f)] for an [f] that may throw: the first throw, left to right,
    ends the map. *)
Fixpoint map_throwing {A B} (f : A -> Thrown B) (xs : list A) : Thrown (list B) :=
  match xs with
  | [] => Ok []
  | x :: xs' =>
      thrown_bind (f x) (fun y =>
      thrown_bind (map_throwing f xs') (fun ys => Ok (y :: ys)))
  end.

Definition missing_key_message (keyName : string) (entityType : EntityType) : string :=
  "Missing required key property: " +:+ keyName +:+
  ". Required keys: " +:+ join ", " (et_keys entityType).

Definition key_properties (entityType : EntityType) : list Property :=
  List.filter (fun p => mem (prop_name p) (et_keys entityType)) (et_properties entityType).

Definition buildKeyValue (entityType : EntityType) (parameters : gmap string Value)
    : Thrown string :=
  let keyProperties := key_properties entityType in
  match keyProperties with
  | [p] =>
      let keyName := prop_name p in
      if negb (js_in keyName parameters) then
        Throw (missing_key_message keyName entityType)
      else Ok (js_String (js_get parameters keyName))
  | _ =>
      thrown_bind
        (map_throwing
           (fun prop =>
              if negb (js_in (prop_name prop) parameters) then
                Throw (missing_key_message (prop_name prop) entityType)
              else Ok (prop_name prop +:+ "='" +:+
                       js_String (js_get parameters (prop_name prop)) +:+ "'"))
           keyProperties)
        (fun keyParts => Ok (join "," keyParts))
  end.

(** The calls the registry makes on the SAP client. *)
Inductive ClientCall :=
| SetUserToken (token : option string)
| ReadEntitySet (url : string) (entitySet : option string)
    (queryOptions : gmap string Value) (isSingle : bool)
| ReadEntity (url : string) (entitySet : option string) (key : string) (isSingle : bool)
| CreateEntity (url : string) (entitySet : option string) (data : gmap string Value)
| UpdateEntity (url : string) (entitySet : option string) (key : string)
    (data : gmap string Value)
| DeleteEntity (url : string) (entitySet : option string) (key : string).

(** The calls that reach the remote service. *)
Definition is_network_call (c : ClientCall) : bool :=
  match c with
  | SetUserToken _ => false
  | _ => true
  end.

(** The data of a response: what the client returned (kept as the text
    [JSON.stringify] prints), or the acknowledgment made up after a
    delete. *)
Inductive ResponseData :=
| ClientData (rendered : string)
| DeleteAck (message : string).

Inductive ExecuteResult :=
| Success (operationDescription : string) (data : ResponseData)
| IsError (text : string).

Definition validOperations : list string :=
  ["read"; "read-single"; "create"; "update"; "delete"].

Definition set_string (k : string) (v : option string) (m : gmap string Value)
    : gmap string Value :=
  match v with
  | Some s => if truthy s then <[k := VStr s]> m else m
  | None => m
  end.

Definition set_number (k : string) (v : option SafeInteger) (m : gmap string Value)
    : gmap string Value :=
  match v with
  | Some n => if int_value n =? 0 then m else <[k := VNum n]> m
  | None => m
  end.

(** The six discrete fields, then [Object.assign] of the legacy object. *)
Definition build_queryOptions (args : ExecuteArgs) : gmap string Value :=
  let discrete :=
    set_number "$skip" (a_skipNumber args)
      (set_number "$top" (a_topNumber args)
         (set_string "$orderby" (a_orderbyString args)
            (set_string "$expand" (a_expandString args)
               (set_string "$select" (a_selectString args)
                  (set_string "$filter" (a_filterString args) ∅))))) in
  match a_queryOptions args with
  | Some legacy => legacy ∪ discrete
  | None => discrete
  end.

(** [updateData = {...parameters}; keys.forEach(key => delete updateData[key])] *)
Definition strip_keys (keys : list string) (parameters : gmap string Value)
    : gmap string Value :=
  foldl (fun updateData key => delete key updateData) parameters keys.

(** The [catch] of [executeEntityOperation]. *)
Definition failed (args : ExecuteArgs) (message : string) : ExecuteResult :=
  IsError ("ERROR: Failed to execute " +:+ a_operation args +:+ " operation on " +:+
           a_entityName args +:+ ": " +:+ message).

Definition service_not_found (serviceId : string) (byTitle : option ODataService) : string :=
  "ERROR: Service not found: " +:+ serviceId +:+ newline +:+ newline +:+
  match byTitle with
  | Some s =>
      "WARNING: It looks like you used the 'title' field instead of the 'id' field!" +:+ newline +:+
      "CORRECTION: Use this serviceId instead: " +:+ svc_id s +:+ newline +:+ newline +:+
      "Remember: Always use the 'id' field from discover-sap-data results, NOT the 'title' field."
  | None =>
      "SUGGESTION: Use 'discover-sap-data' to find available services." +:+ newline +:+
      "REMINDER: Make sure you're using the 'id' field from search results, NOT the 'title' field."
  end.

Section Dispatch.

Variable discoveredServices : list ODataService.
(** [this.userToken] *)
Variable userToken : option string.

(** The answer of the SAP client to a call that reaches the remote
    service. *)
Variable sapClient : ClientCall -> Thrown string.

(** A computation inside the [try]: it adds client calls to the trace and
    ends with a value or a throw. *)
Definition Exec (A : Type) : Type := list ClientCall -> list ClientCall * Thrown A.

Definition ret {A} (a : A) : Exec A := fun tr => (tr, Ok a).
Definition throw {A} (message : string) : Exec A := fun tr => (tr, Throw message).
Definition bind {A B} (m : Exec A) (f : A -> Exec B) : Exec B :=
  fun tr =>
    match m tr with
    | (tr', Ok a) => f a tr'
    | (tr', Throw msg) => (tr', Throw msg)
    end.
Definition lift {A} (t : Thrown A) : Exec A := fun tr => (tr, t).
Definition client (c : ClientCall) : Exec string :=
  fun tr => (tr ++ [c], sapClient c).
Definition setUserToken (token : option string) : Exec unit :=
  fun tr => (tr ++ [SetUserToken token], Ok tt).

Notation "x <- m ;; k" := (bind m (fun x => k))
  (at level 100, m at next level, right associativity).

Definition read_description (entityName : string) (queryOptions : gmap string Value) : string :=
  "Reading " +:+ entityName +:+ " entities" +:+
  (match queryOptions !! "$top" with
   | Some v => if js_truthy v then " (top " +:+ js_String v +:+ ")" else ""
   | None => ""
   end) +:+
  (match queryOptions !! "$filter" with
   | Some v => if js_truthy v then " with filter: " +:+ js_String v else ""
   | None => ""
   end).

(** The token handed to the client before the operation:
    [this.userToken] when [useUserToken] (true unless it is given as
    false) and the token are truthy, [undefined] otherwise. *)
Definition session_token (args : ExecuteArgs) : option string :=
  let useUserToken := match a_useUserToken args with Some false => false | _ => true end in
  match userToken with
  | Some t => if useUserToken && truthy t then Some t else None
  | None => None
  end.

(** The [switch] over the operation. *)
Definition dispatch (operation entityName : string) (service : ODataService)
    (entityType : EntityType) (parameters queryOptions : gmap string Value)
    : Exec (string * ResponseData) :=
  let url := svc_url service in
  let entitySet := et_entitySet entityType in
  if String.eqb operation "read" then
    data <- client (ReadEntitySet url entitySet queryOptions false) ;;
    ret (read_description entityName queryOptions, ClientData data)
  else if String.eqb operation "read-single" then
    keyValue <- lift (buildKeyValue entityType parameters) ;;
    data <- client (ReadEntity url entitySet keyValue false) ;;
    ret ("Reading single " +:+ entityName +:+ " with key: " +:+ keyValue, ClientData data)
  else if String.eqb operation "create" then
    if negb (et_creatable entityType) then
      throw ("Entity '" +:+ entityName +:+ "' does not support create operations")
    else
      data <- client (CreateEntity url entitySet parameters) ;;
      ret ("Creating new " +:+ entityName, ClientData data)
  else if String.eqb operation "update" then
    if negb (et_updatable entityType) then
      throw ("Entity '" +:+ entityName +:+ "' does not support update operations")
    else
      updateKeyValue <- lift (buildKeyValue entityType parameters) ;;
      let updateData := strip_keys (et_keys entityType) parameters in
      data <- client (UpdateEntity url entitySet updateKeyValue updateData) ;;
      ret ("Updating " +:+ entityName +:+ " with key: " +:+ updateKeyValue, ClientData data)
  else if String.eqb operation "delete" then
    if negb (et_deletable entityType) then
      throw ("Entity '" +:+ entityName +:+ "' does not support delete operations")
    else
      deleteKeyValue <- lift (buildKeyValue entityType parameters) ;;
      _ <- client (DeleteEntity url entitySet deleteKeyValue) ;;
      ret ("Deleting " +:+ entityName +:+ " with key: " +:+ deleteKeyValue,
           DeleteAck ("Successfully deleted " +:+ entityName +:+ " with key: " +:+ deleteKeyValue))
  else throw ("Unsupported operation: " +:+ operation).

(** [executeEntityOperation]: the trace of client calls and the response. *)
Definition executeEntityOperation (args : ExecuteArgs) : list ClientCall * ExecuteResult :=
  let serviceId := a_serviceId args in
  let entityName := a_entityName args in
  let operation := toLowerCase (a_operation args) in
  let parameters := default ∅ (a_parameters args) in
  if negb (mem operation validOperations) then
    ([], failed args ("Invalid operation: " +:+ operation +:+
                      ". Valid operations are: " +:+ join ", " validOperations))
  else
    let queryOptions := build_queryOptions args in
    match List.find (fun s => String.eqb (svc_id s) serviceId) discoveredServices with
    | None =>
        let serviceByTitle :=
          List.find (fun s => String.eqb (toLowerCase (svc_title s)) (toLowerCase serviceId))
                    discoveredServices in
        ([], IsError (service_not_found serviceId serviceByTitle))
    | Some service =>
        match List.find (fun e => String.eqb (et_name e) entityName)
                        (default [] (svc_entityTypes service)) with
        | None =>
            ([], IsError ("ERROR: Entity '" +:+ entityName +:+ "' not found in service '" +:+
                          serviceId +:+ "'"))
        | Some entityType =>
            match (_ <- setUserToken (session_token args) ;;
                   dispatch operation entityName service entityType parameters queryOptions) []
            with
            | (tr, Ok (operationDescription, data)) => (tr, Success operationDescription data)
            | (tr, Throw message) => (tr, failed args message)
            end
        end
    end.

End Dispatch.

(** ** Destination service *)

Record HttpDestination := mkHttpDestination {
  dest_url : string;
  dest_username : option string;
  dest_password : option string;
  dest_authentication : option string
}.

(** An entry of the [destinations] environment variable. *)
Record EnvDestination := mkEnvDestination {
  ed_name : string;
  ed_url : string;
  ed_username : string;
  ed_password : string
}.

Record ProcessEnv := mkProcessEnv {
  env_destinations : option string;
  env_DESTINATIONS : option string;
  env_USER_JWT : option string
}.

(** [a || b] on optional strings *)
Definition or_else (a b : option string) : option string :=
  match a with
  | Some s => if truthy s then Some s else b
  | None => b
  end.

(** What a resolution does besides giving its result: the debug line at
    the head of [getDestination], which says whether a JWT was passed in,
    and the lookup in the managed destination service, as it is asked. *)
Inductive ResolverEvent :=
| DebugFetching (destinationName : string) (withJWT : bool)
| SdkGetDestination (destinationName : string) (jwt : option string).

Section Destination.

(** [this.config.get(key, fallback)] *)
Variable config_get : string -> string -> string.
Variable env : ProcessEnv.
(** [JSON.parse] of the environment variable followed by the array
    methods used on it; a text that is no JSON array throws. *)
Variable parse_destinations : string -> Thrown (list EnvDestination).
(** The Cloud SDK's [getDestination]: a destination, [null] or a throw. *)
Variable sdk_getDestination : string -> option string -> Thrown (option HttpDestination).

Definition getJWT : option string :=
  or_else (env_USER_JWT env) None.

Definition basic (d : EnvDestination) : HttpDestination :=
  {| dest_url := ed_url d;
     dest_username := Some (ed_username d);
     dest_password := Some (ed_password d);
     dest_authentication := Some "BasicAuthentication" |}.

(** The first [try] of [getDestination]: the endpoints listed in the
    environment. A throw inside it is caught and gives nothing. *)
Definition from_environment (destinationName : string) : option HttpDestination :=
  match or_else (env_destinations env) (env_DESTINATIONS env) with
  | None => None
  | Some envDestinations =>
      match parse_destinations envDestinations with
      | Throw _ => None
      | Ok destinations =>
          match List.find (fun d => String.eqb (ed_name d) destinationName) destinations with
          | Some envDest => Some (basic envDest)
          | None =>
              match destinations with
              | [single] => Some (basic single)
              | _ => None
              end
          end
      end
  end.

Definition getDestination (destinationName : string) (jwtToken : option string)
    : list ResolverEvent * Thrown HttpDestination :=
  let fetching :=
    DebugFetching destinationName
      (match jwtToken with Some t => truthy t | None => false end) in
  match from_environment destinationName with
  | Some d => ([fetching], Ok d)
  | None =>
      let jwt := or_else jwtToken getJWT in
      ([fetching; SdkGetDestination destinationName jwt],
       match sdk_getDestination destinationName jwt with
       | Ok (Some destination) => Ok destination
       | Ok None =>
           Throw ("Destination '" +:+ destinationName +:+
                  "' not found in environment variables or BTP destination service")
       | Throw message => Throw message
       end)
  end.

Definition discoveryDestinationName : string :=
  config_get "sap.discoveryDestinationName" (config_get "sap.destinationName" "SAP_SYSTEM").

Definition executionDestinationName : string :=
  config_get "sap.executionDestinationName" (config_get "sap.destinationName" "SAP_SYSTEM").

Definition getDiscoveryDestination : list ResolverEvent * Thrown HttpDestination :=
  getDestination discoveryDestinationName None.

Definition getExecutionDestination (jwtToken : option string)
    : list ResolverEvent * Thrown HttpDestination :=
  getDestination executionDestinationName jwtToken.

End Destination.

(** ** Notions used to state the properties *)

(** A list in descending order of score. *)
Definition descending {A} (score : A -> Z) : list A -> Prop :=
  StronglySorted (fun a b => score b <= score a).

(** The elements of one score, in the order they have in the list. *)
Definition with_score {A} (score : A -> Z) (s : Z) (l : list A) : list A :=
  List.filter (fun a => score a =? s) l.

(** The entities a match carries into the mapping table. *)
Definition match_entities (m : Match) : list EntityView :=
  match m_type m with
  | TService => default [] (m_entities m)
  | _ => match m_entity m with Some e => [e] | None => [] end
  end.

(** A match is taken from the catalog: its service is a service of the
    catalog and its entities are the views of entity types of that
    service. *)
Definition from_catalog (services : list ODataService) (m : Match) : Prop :=
  exists svc,
    In svc services /\
    sr_id (m_service m) = svc_id svc /\
    sr_title (m_service m) = svc_title svc /\
    forall ev, In ev (match_entities m) ->
      exists e, In e (default [] (svc_entityTypes svc)) /\ ev = entity_view e.

(** The scan of the catalog that answers a discovery call, read off the
    result: when all services are returned it is the scan of the resolved
    category with the empty query; otherwise it is the scan for the query
    in the category and the mode the result reports. *)
Definition answering_scan (services : list ODataService) (args : DiscoverArgs) : list Match :=
  let r := d_result (searchServicesAndEntities services args) in
  if r_returnedAllServices r then
    performCategorySearch services "" (r_actualCategory r) Combined
  else
    performCategorySearch services (query_of args) (r_actualCategory r) (r_searchMode r).

(** Tiers 1 and 2 gave no match: the combined scan of the category is
    empty, and so is the separated one when it ran. *)
Definition tiers12_empty (services : list ODataService) (args : DiscoverArgs) : Prop :=
  let query := query_of args in
  let category := category_of args in
  performCategorySearch services query category Combined = [] /\
  (includes query " " = true ->
   performCategorySearch services query category Separated = []).

(** Tiers 1 to 3 gave no match. *)
Definition tiers123_empty (services : list ODataService) (args : DiscoverArgs) : Prop :=
  let query := query_of args in
  let category := category_of args in
  tiers12_empty services args /\
  (category <> "all" ->
   performCategorySearch services query "all" Combined = [] /\
   (includes query " " = true ->
    performCategorySearch services query "all" Separated = [])).

Definition tab : string := String (ascii_of_nat 9) "".



(** The capability flag an operation is gated by. *)
Definition capability_flag (operation : string) (e : EntityType) : option bool :=
  if String.eqb operation "create" then Some (et_creatable e)
  else if String.eqb operation "update" then Some (et_updatable e)
  else if String.eqb operation "delete" then Some (et_deletable e)
  else None.

(** The arguments with another operation name. *)
Definition with_operation (operation : string) (args : ExecuteArgs) : ExecuteArgs :=
  {| a_serviceId := a_serviceId args;
     a_entityName := a_entityName args;
     a_operation := operation;
     a_parameters := a_parameters args;
     a_filterString := a_filterString args;
     a_selectString := a_selectString args;
     a_expandString := a_expandString args;
     a_orderbyString := a_orderbyString args;
     a_topNumber := a_topNumber args;
     a_skipNumber := a_skipNumber args;
     a_queryOptions := a_queryOptions args;
     a_useUserToken := a_useUserToken args |}.

(** Two responses are the same, or they report the same thrown message,
    each under the operation name of its own call. *)
Definition same_outcome (args args' : ExecuteArgs) (r r' : ExecuteResult) : Prop :=
  r = r' \/ exists message, r = failed args message /\ r' = failed args' message.

(** ** More sample data *)



Module Landscape.

(** No configured names: every [config.get] gives its fallback. *)
Definition no_config (key fallback : string) : string := fallback.

(** No list of endpoints in the environment is ever parsed here. *)
Definition no_parse (text : string) : Thrown (list EnvDestination) :=
  Throw "Unexpected end of JSON input".

Definition technical : HttpDestination :=
  mkHttpDestination "https://s4.example/technical" None None (Some "OAuth2ClientCredentials").

Definition propagated : HttpDestination :=
  mkHttpDestination "https://s4.example/user" None None (Some "OAuth2UserTokenExchange").

(** A destination service that answers a lookup made with a JWT on behalf
    of the user, and one made without as the technical user. *)
Definition sdk (destinationName : string) (jwt : option string)
    : Thrown (option HttpDestination) :=
  match jwt with
  | Some _ => Ok (Some propagated)
  | None => Ok (Some technical)
  end.

Definition env_without_jwt : ProcessEnv := mkProcessEnv None None None.
Definition env_with_jwt : ProcessEnv := mkProcessEnv None None (Some "eyJ.user.jwt").

End Landscape.

(** The last service of a list with a given id: the one whose tags the
    map of categories keeps. *)
Fixpoint last_with_id (id : string) (l : list ODataService) : option ODataService :=
  match l with
  | [] => None
  | s :: l' =>
      match last_with_id id l' with
      | Some s' => Some s'
      | None => if String.eqb (svc_id s) id then Some s else None
      end
  end.

(** A string without a whitespace character. *)
Fixpoint no_space (s : string) : bool :=
  match s with
  | EmptyString => true
  | String c s' => negb (is_space c) && no_space s'
  end.

(** ** The legacy service search *)

(** An entry of [result.services] of [searchServices]; the version fields,
    which the catalog model does not carry, are left out. *)
Record ServiceSummary := mkServiceSummary {
  ss_id : string;
  ss_title : string;
  ss_description : string;
  ss_entityCount : nat;
  ss_categories : list string
}.

Record ServiceSearch := mkServiceSearch {
  ls_query : string;
  ls_category : string;
  ls_totalFound : nat;
  ls_showing : nat;
  ls_services : list ServiceSummary
}.

Section LegacySearch.

Variable discoveredServices : list ODataService.

(** The two filters of [searchServices], before the limit. *)
Definition searchServices_filtered (args : DiscoverArgs) : list ODataService :=
  let query := query_of args in
  let category := category_of args in
  let byCategory :=
    if truthy category && negb (String.eqb category "all") then
      List.filter
        (fun service =>
           match serviceCategories discoveredServices !! svc_id service with
           | Some categories => mem category categories
           | None => false
           end)
        discoveredServices
    else discoveredServices in
  if truthy query then
    List.filter
      (fun service =>
         includes (toLowerCase (svc_id service)) query ||
         includes (toLowerCase (svc_title service)) query ||
         includes (toLowerCase (svc_description service)) query)
      byCategory
  else byCategory.

(** [searchServices]: the result object printed in the response. *)
Definition searchServices (args : DiscoverArgs) : ServiceSearch :=
  let query := query_of args in
  let category := category_of args in
  let limit := limit_of args in
  let filteredServices := searchServices_filtered args in
  let totalFound := length filteredServices in
  let shown := JsArray.slice0 filteredServices limit in
  {| ls_query := if truthy query then query else "all";
     ls_category := category;
     ls_totalFound := totalFound;
     ls_showing := length shown;
     ls_services :=
       map (fun service =>
              {| ss_id := svc_id service;
                 ss_title := svc_title service;
                 ss_description := svc_description service;
                 ss_entityCount := length (default [] (svc_entityTypes service));
                 ss_categories := categories_of discoveredServices service |})
           shown |}.

End LegacySearch.

(** A service belongs to a category: the category is all, or it is among
    the categories kept for the service. *)
Definition in_category (services : list ODataService) (category : string)
    (service : ODataService) : bool :=
  String.eqb category "all" || mem category (categories_of services service).

(** A service matches a query at the service level: its lowercased id,
    title or description has the query in it. *)
Definition service_hit (query : string) (service : ODataService) : bool :=
  includes (toLowerCase (svc_id service)) query ||
  includes (toLowerCase (svc_title service)) query ||
  includes (toLowerCase (svc_description service)) query.

Definition is_service_match (m : Match) : bool :=
  match m_type m with TService => true | _ => false end.

(** The row of the mapping table for one property of one entity type of
    one service of the catalog. *)
Definition catalog_row (svc : ODataService) (e : EntityType) (p : Property) : MappingRow :=
  {| row_serviceId := svc_id svc;
     row_serviceName := svc_title svc;
     row_entityName := et_name e;
     row_entitySet := et_entitySet e;
     row_propertyName := prop_name p;
     row_propertyType := prop_type p;
     row_isKey := mem (prop_name p) (et_keys e);
     row_nullable := prop_nullable p;
     row_maxLength := maxLength_text (prop_maxLength p);
     row_capabilities :=
       "R:Y C:" +:+ yn (et_creatable e) +:+ " U:" +:+ yn (et_updatable e) +:+
       " D:" +:+ yn (et_deletable e) |}.

(** What a discrete field of the execute arguments contributes to the
    query options: a string that is not empty, a number that is not 0. *)
Definition string_option (v : option string) : option Value :=
  match v with
  | Some s => if truthy s then Some (VStr s) else None
  | None => None
  end.

Definition number_option (v : option SafeInteger) : option Value :=
  match v with
  | Some n => if int_value n =? 0 then None else Some (VNum n)
  | None => None
  end.

Definition discrete_option (args : ExecuteArgs) (k : string) : option Value :=
  if String.eqb k "$filter" then string_option (a_filterString args)
  else if String.eqb k "$select" then string_option (a_selectString args)
  else if String.eqb k "$expand" then string_option (a_expandString args)
  else if String.eqb k "$orderby" then string_option (a_orderbyString args)
  else if String.eqb k "$top" then number_option (a_topNumber args)
  else if String.eqb k "$skip" then number_option (a_skipNumber args)
  else None.

(** The lookups among the events of a resolution. *)
Definition is_lookup (e : ResolverEvent) : bool :=
  match e with SdkGetDestination _ _ => true | DebugFetching _ _ => false end.

(** ** The mapping table as text *)

(** A [Map] from strings, in insertion order: [upsert k f m] changes the
    value of [k] in place, or adds [k] at the end. *)
Fixpoint upsert {V} (k : string) (f : option V -> V) (m : list (string * V))
    : list (string * V) :=
  match m with
  | [] => [(k, f None)]
  | (k', v) :: m' =>
      if String.eqb k' k then (k', f (Some v)) :: m' else (k', v) :: upsert k f m'
  end.

Definition serviceKey (row : MappingRow) : string :=
  row_serviceId row +:+ " (" +:+ row_serviceName row +:+ ")".

(** The first loop of [formatMappingTableAsText]: the rows by service key
    and, within a service, by entity name. *)
Definition group_rows (mappingTable : list MappingRow)
    : list (string * list (string * list MappingRow)) :=
  foldl (fun grouped row =>
           upsert (serviceKey row)
                  (fun serviceGroup =>
                     upsert (row_entityName row)
                            (fun rows => default [] rows ++ [row])
                            (default [] serviceGroup))
                  grouped)
        [] mappingTable.

(** [s.repeat(n)] *)
Fixpoint repeat_string (s : string) (n : nat) : string :=
  match n with
  | O => ""
  | S n' => s +:+ repeat_string s n'
  end.

(** [s.padEnd(n)] *)
Definition padEnd (n : nat) (s : string) : string :=
  s +:+ repeat_string " " (n - String.length s).

(** the character U+2500, in UTF-8 *)
Definition box_line : string :=
  String (ascii_of_nat 226) (String (ascii_of_nat 148) (String (ascii_of_nat 128) "")).

Definition yes_no (b : bool) : string := if b then "YES" else "NO".

Definition format_property (prop : MappingRow) : string :=
  "  " +:+ padEnd 30 (row_propertyName prop) +:+ " " +:+ padEnd 20 (row_propertyType prop) +:+
  " " +:+ padEnd 5 (yes_no (row_isKey prop)) +:+ " " +:+
  padEnd 10 (yes_no (row_nullable prop)) +:+ " " +:+ row_maxLength prop +:+ newline.

(** The block of one entity; [properties[0]] of an empty group is
    undefined, and reading its fields throws. *)
Definition format_entity (entityName : string) (properties : list MappingRow)
    : Thrown string :=
  match properties with
  | [] => Throw "Cannot read properties of undefined (reading 'entitySet')"
  | firstProp :: _ =>
      Ok ("  ENTITY: " +:+ entityName +:+ newline +:+
          "  Entity Set: " +:+ default "undefined" (row_entitySet firstProp) +:+ newline +:+
          "  Capabilities: " +:+ row_capabilities firstProp +:+ newline +:+
          "  Properties:" +:+ newline +:+
          "  " +:+ repeat_string box_line 76 +:+ newline +:+
          "  " +:+ padEnd 30 "Property Name" +:+ " " +:+ padEnd 20 "Type" +:+ " " +:+
          padEnd 5 "Key" +:+ " " +:+ padEnd 10 "Nullable" +:+ " " +:+ "MaxLen" +:+ newline +:+
          "  " +:+ repeat_string box_line 76 +:+ newline +:+
          foldr (fun prop rest => format_property prop +:+ rest) "" properties +:+
          newline)
  end.

Definition format_service (serviceKey : string) (entities : list (string * list MappingRow))
    : Thrown string :=
  thrown_bind (map_throwing (fun '(entityName, properties) => format_entity entityName properties)
                            entities)
    (fun blocks =>
       Ok ("SERVICE: " +:+ serviceKey +:+ newline +:+ repeat_string "=" 80 +:+ newline +:+
           newline +:+ foldr append "" blocks +:+ newline)).

Definition formatMappingTableAsText (mappingTable : list MappingRow) : Thrown string :=
  if is_empty mappingTable then Ok "No data"
  else
    thrown_bind (map_throwing (fun '(serviceKey, entities) => format_service serviceKey entities)
                              (group_rows mappingTable))
      (fun blocks => Ok (foldr append "" blocks)).

(** The rows printed under one service key and entity name. *)
Definition rows_of (k n : string) (grouped : list (string * list (string * list MappingRow)))
    : list MappingRow :=
  flat_map (fun '(k', entities) =>
              if String.eqb k' k
              then flat_map (fun '(n', rows) => if String.eqb n' n then rows else []) entities
              else [])
           grouped.

(** Every key occurs once, at both levels, and no group of rows is
    empty. *)
Definition well_grouped (grouped : list (string * list (string * list MappingRow))) : Prop :=
  List.NoDup (map fst grouped) /\
  forall k entities, In (k, entities) grouped ->
    List.NoDup (map fst entities) /\ entities <> [] /\
    forall n rows, In (n, rows) entities -> rows <> [].

(** The rows printed under one entity name within a service. *)
Definition inner_rows (n : string) (entities : list (string * list MappingRow))
    : list MappingRow :=
  flat_map (fun '(n', rows) => if String.eqb n' n then rows else []) entities.

(** One step of the grouping loop. *)
Definition add_row (row : MappingRow) (grouped : list (string * list (string * list MappingRow)))
    : list (string * list (string * list MappingRow)) :=
  upsert (serviceKey row)
         (fun serviceGroup =>
            upsert (row_entityName row)
                   (fun rows => default [] rows ++ [row])
                   (default [] serviceGroup))
         grouped.

(** A row belongs under a service key and an entity name. *)
Definition same_group (k n : string) (row : MappingRow) : bool :=
  String.eqb (serviceKey row) k && String.eqb (row_entityName row) n.

(** ** The resource of the services *)

(** [serviceCategories] as the [Map] it is, in insertion order. *)
Definition serviceCategories_entries (services : list ODataService)
    : list (string * list string) :=
  foldl (fun m s => upsert (svc_id s) (fun _ => categorize s) m) [] services.

(** [Array.from(new Set(xs))]: the first occurrence of each element. *)
Definition dedupe (xs : list string) : list string :=
  foldl (fun seen x => if mem x seen then seen else seen ++ [x]) [] xs.

Record ServicesResource := mkServicesResource {
  res_totalServices : nat;
  res_categories : list string;
  res_services : list ServiceSummary
}.

(** The object the resource [sap://services] prints. *)
Definition services_resource (services : list ODataService) : ServicesResource :=
  {| res_totalServices := length services;
     res_categories := dedupe (flat_map snd (serviceCategories_entries services));
     res_services :=
       map (fun service =>
              {| ss_id := svc_id service;
                 ss_title := svc_title service;
                 ss_description := svc_description service;
                 ss_entityCount := length (default [] (svc_entityTypes service));
                 ss_categories := categories_of services service |})
           services |}.

(** * Properties *)

(** ** Evaluations *)

Example includes_ex : includes "api_business_partner" "bp_" = false /\ includes "user parameters" "r p" = true.
Proof. split; reflexivity. Qed.

Example buildKeyValue_single :
  buildKeyValue Sample.customer {[ "ID" := VNum (mkSafeInteger 42 I) ]} = Ok "42".
Proof. reflexivity. Qed.

(** ** The sort *)

Section SortFacts.

Context {A : Type} (score : A -> Z).

Let cmp (a b : A) : Z := score b - score a.

Lemma insert_by_perm x l : Permutation (JsArray.insert_by cmp x l) (x :: l).
Proof.
  induction l as [|y l IH]; simpl; [reflexivity|].
  destruct (cmp x y <=? 0); [reflexivity|].
  rewrite IH. apply perm_swap.
Qed.

Lemma sort_perm l : Permutation (JsArray.sort cmp l) l.
Proof.
  induction l as [|x l IH]; simpl; [constructor|].
  rewrite insert_by_perm. by constructor.
Qed.

Lemma sort_length l : length (JsArray.sort cmp l) = length l.
Proof. apply Permutation_length, sort_perm. Qed.

Lemma insert_by_descending x l : descending score l -> descending score (JsArray.insert_by cmp x l).
Proof.
  induction l as [|y l IH]; simpl; intros Hs.
  - repeat constructor.
  - inversion Hs as [|? ? Hl Hy]; subst.
    destruct (Z.leb_spec (cmp x y) 0) as [Hle|Hgt]; unfold cmp in *.
    + constructor; [done|]. constructor; [lia|].
      eapply Forall_impl; [exact Hy|]. simpl. intros; lia.
    + constructor; [by apply IH|].
      eapply Permutation_Forall; [symmetry; apply insert_by_perm|].
      constructor; [lia | done].
Qed.

Lemma sort_descending l : descending score (JsArray.sort cmp l).
Proof.
  induction l as [|x l IH]; simpl; [constructor|].
  by apply insert_by_descending.
Qed.

Lemma insert_by_with_score s x l :
  with_score score s (JsArray.insert_by cmp x l) = with_score score s (x :: l).
Proof.
  induction l as [|y l IH]; [done|]. simpl.
  destruct (Z.leb_spec (cmp x y) 0) as [Hle|Hgt]; [done|].
  unfold cmp in Hgt. simpl. rewrite IH. simpl.
  destruct (Z.eqb_spec (score x) s), (Z.eqb_spec (score y) s); try done; lia.
Qed.

Lemma sort_stable s l : with_score score s (JsArray.sort cmp l) = with_score score s l.
Proof.
  induction l as [|x l IH]; [done|]. simpl.
  rewrite insert_by_with_score. simpl. by rewrite IH.
Qed.

End SortFacts.

(** ** Discovery *)

Section DiscoveryFacts.

Variable services : list ODataService.

(** Whatever tier answered, the matches are those one scan of the catalog
    pushed, in the order it pushed them. *)
Lemma run_tiers_scan query category :
  exists q c mode,
    st_matches (run_tiers services query category) = performCategorySearch services q c mode.
Proof.
  unfold run_tiers, level5, level3, level2, level1; simpl.
  repeat (match goal with
          | |- context [if ?b then _ else _] => destruct b eqn:?; simpl
          end);
    eauto.
Qed.

Lemma sorted_is_sort args :
  d_sorted (searchServicesAndEntities services args) =
  JsArray.sort by_score (st_matches (run_tiers services (query_of args) (category_of args))).
Proof. reflexivity. Qed.

Lemma limited_is_slice args :
  d_limitedMatches (searchServicesAndEntities services args) =
  JsArray.slice0 (d_sorted (searchServicesAndEntities services args)) (limit_of args).
Proof. reflexivity. Qed.

End DiscoveryFacts.

(** The matches the tiers end with are those of the scan the result
    reports: of every service of the category with the empty query when all
    services are returned, and of the query, the category and the mode of
    the result otherwise. *)
Lemma run_tiers_answering_scan (services : list ODataService) (args : DiscoverArgs) :
  st_matches (run_tiers services (query_of args) (category_of args)) =
  answering_scan services args.
Proof.
  unfold answering_scan, searchServicesAndEntities. cbn [d_result r_returnedAllServices
    r_actualCategory r_searchMode].
  set (query := query_of args). set (category := category_of args).
  set (scanned st :=
         st_returnedAllServices st = false /\
         st_matches st =
           performCategorySearch services query (st_category st) (st_searchMode st)).
  assert (H1 : scanned (level1 services query category)) by done.
  assert (H2 : forall st, scanned st -> scanned (level2 services query st)).
  { intros st [Hall Hscan]. unfold level2. by destruct (_ && _). }
  assert (H3 : forall st, scanned st -> scanned (level3 services query st)).
  { intros st [Hall Hscan]. unfold level3.
    destruct (_ && _); [|done]. by destruct (_ && _). }
  unfold run_tiers.
  destruct (H3 _ (H2 _ H1)) as [Hall Hscan].
  generalize dependent (level3 services query (level2 services query (level1 services query category))).
  intros st Hall Hscan. unfold level5.
  destruct (_ && _); cbn [st_returnedAllServices st_matches st_category st_searchMode].
  - reflexivity.
  - by rewrite Hall.
Qed.

(** C9: the matches of a discovery call are the matches the answering scan
    of the catalog pushed, put in descending order of score; among the
    matches of one score the order of the scan is kept, and the matches
    returned are the first of that order, up to the limit. *)
Theorem C9_sort_descending_stable (services : list ODataService) (args : DiscoverArgs) :
  let d := searchServicesAndEntities services args in
  let found := answering_scan services args in
  found = st_matches (run_tiers services (query_of args) (category_of args)) /\
  descending m_score (d_sorted d) /\
  Permutation (d_sorted d) found /\
  (forall s, with_score m_score s (d_sorted d) = with_score m_score s found) /\
  r_totalFound (d_result d) = length found /\
  d_limitedMatches d = JsArray.slice0 (d_sorted d) (limit_of args) /\
  (exists n, d_limitedMatches d = firstn n (d_sorted d)) /\
  (0 <= limit_of args ->
   d_limitedMatches d = firstn (Z.to_nat (limit_of args)) (d_sorted d)).
Proof.
  intros d found. subst d found.
  rewrite <- run_tiers_answering_scan.
  rewrite limited_is_slice, sorted_is_sort.
  split; [reflexivity|].
  split; [apply (sort_descending m_score)|].
  split; [apply (sort_perm m_score)|].
  split; [intros s; apply (sort_stable m_score)|].
  split; [apply (sort_length m_score)|].
  split; [reflexivity|].
  split; [unfold JsArray.slice0; eauto|].
  intros Hlimit. unfold JsArray.slice0.
  destruct (Z.ltb_spec (limit_of args) 0) as [Hneg|_]; [lia|].
  destruct (Z.min_spec (limit_of args)
              (Z.of_nat (length (JsArray.sort (by_score)
                 (st_matches (run_tiers services (query_of args) (category_of args)))))))
    as [[_ ->]|[Hle ->]]; [done|].
  rewrite Nat2Z.id. rewrite firstn_all. symmetry. apply firstn_all2. lia.
Qed.

Section MappingFacts.

Variable services : list ODataService.

Lemma match_rows_entities m :
  match_rows m = flat_map (entity_rows (m_service m)) (match_entities m).
Proof.
  unfold match_rows, match_entities.
  destruct (m_type m), (m_entities m), (m_entity m); simpl; by rewrite ?app_nil_r.
Qed.

Lemma entity_rows_length s e : length (entity_rows s e) = length (ev_properties e).
Proof. unfold entity_rows. by rewrite length_map. Qed.

Lemma flat_map_length_sum {X Y} (f : X -> list Y) (l : list X) :
  length (flat_map f l) = list_sum (map (fun x => length (f x)) l).
Proof.
  induction l as [|x l IH]; [done|]. simpl. by rewrite length_app, IH.
Qed.

Lemma convert_flat ms :
  convertToMappingTable ms =
  flat_map (fun m => flat_map (entity_rows (m_service m)) (match_entities m)) ms.
Proof.
  unfold convertToMappingTable. apply flat_map_ext. intros m. apply match_rows_entities.
Qed.

Lemma entity_matches_from_catalog q mode svc e m :
  In svc services -> In e (default [] (svc_entityTypes svc)) ->
  In m (entity_matches q mode svc e) -> from_catalog services m.
Proof.
  intros Hsvc He. unfold entity_matches.
  destruct (scan_properties _ _ _ _) as [entityScore matchedProperties].
  destruct (0 <? entityScore); [|done].
  intros [<-|[]]. exists svc. repeat split; try done.
  unfold match_entities; simpl.
  destruct (90 <=? entityScore); simpl; intros ev [<-|[]]; eauto.
Qed.

Lemma search_from_catalog q c mode m :
  In m (performCategorySearch services q c mode) -> from_catalog services m.
Proof.
  unfold performCategorySearch. rewrite in_flat_map. intros (svc & Hsvc & Hm).
  unfold search_service in Hm.
  destruct (negb (String.eqb c "all") && negb (mem c (categories_of services svc))); [done|].
  apply in_app_or in Hm as [Hm|Hm].
  - destruct (_ || _); [|done]. destruct Hm as [<-|[]].
    exists svc. repeat split; try done.
    unfold match_entities; simpl. intros ev Hev.
    apply in_map_iff in Hev as (e & <- & He). eauto.
  - destruct (svc_entityTypes svc) as [ets|] eqn:Hets; [|done].
    destruct (truthy q); [|done].
    apply in_flat_map in Hm as (e & He & Hm).
    eapply entity_matches_from_catalog; eauto. by rewrite Hets.
Qed.

Lemma firstn_In_orig {X} n (l : list X) x : In x (firstn n l) -> In x l.
Proof.
  intros H. rewrite <- (firstn_skipn n l). apply in_or_app. by left.
Qed.

Lemma limited_from_catalog args m :
  In m (d_limitedMatches (searchServicesAndEntities services args)) ->
  from_catalog services m.
Proof.
  rewrite limited_is_slice, sorted_is_sort. unfold JsArray.slice0. intros H.
  apply firstn_In_orig in H.
  eapply Permutation_in in H; [|apply (sort_perm m_score)].
  destruct (run_tiers_scan services (query_of args) (category_of args)) as (q & c & mode & Hscan).
  rewrite Hscan in H. by eapply search_from_catalog.
Qed.

End MappingFacts.

(** C4: the mapping table of a discovery call is the rows of the matches
    kept after the truncation to the limit, one row for each property of
    each entity they carry: its length is the sum of the property counts of
    these entities, and for each of them every property of the entity type
    in the catalog has its row. *)
Theorem C4_mapping_table_complete (services : list ODataService) (args : DiscoverArgs) :
  let d := searchServicesAndEntities services args in
  let table := r_mappingTable (d_result d) in
  d_limitedMatches d = JsArray.slice0 (d_sorted d) (limit_of args) /\
  table = flat_map (fun m => flat_map (entity_rows (m_service m)) (match_entities m))
                   (d_limitedMatches d) /\
  length table = list_sum (map ev_propertyCount (flat_map match_entities (d_limitedMatches d))) /\
  (forall m ev, In m (d_limitedMatches d) -> In ev (match_entities m) ->
     exists svc e,
       In svc services /\ In e (default [] (svc_entityTypes svc)) /\
       sr_id (m_service m) = svc_id svc /\ ev = entity_view e /\
       forall p, In p (et_properties e) ->
         exists row, In row table /\
           row_serviceId row = svc_id svc /\
           row_entityName row = et_name e /\
           row_propertyName row = prop_name p /\
           row_propertyType row = prop_type p).
Proof.
  intros d table.
  assert (Htable : table = flat_map (fun m => flat_map (entity_rows (m_service m)) (match_entities m))
                                    (d_limitedMatches d)) by apply convert_flat.
  split; [apply limited_is_slice|]. split; [exact Htable|]. split.
  - rewrite Htable. clear Htable.
    assert (Hall : Forall (from_catalog services) (d_limitedMatches d)).
    { apply List.Forall_forall. intros m. apply limited_from_catalog. }
    induction (d_limitedMatches d) as [|m ms IH]; [done|].
    inversion Hall as [|? ? Hm Hms]; subst. simpl.
    rewrite length_app, map_app, list_sum_app, IH by done. f_equal.
    destruct Hm as (svc & _ & _ & _ & Hev).
    induction (match_entities m) as [|ev evs IHe]; [done|]. simpl.
    rewrite length_app, entity_rows_length, IHe by (intros; apply Hev; by right). f_equal.
    destruct (Hev ev) as (e & _ & ->); [by left|]. simpl. by rewrite length_map.
  - intros m ev Hm Hev.
    destruct (limited_from_catalog services args m Hm) as (svc & Hsvc & Hid & _ & Hviews).
    destruct (Hviews ev Hev) as (e & He & ->).
    exists svc, e. repeat split; try done.
    intros p Hp.
    eexists. split.
    + rewrite Htable. apply in_flat_map. exists m. split; [done|].
      apply in_flat_map. exists (entity_view e). split; [done|].
      unfold entity_rows. apply in_map. simpl. apply in_map. exact Hp.
    + simpl. by rewrite Hid.
Qed.

(** ** The tiers *)

Lemma is_empty_nil {A} (l : list A) : is_empty l = true <-> l = [].
Proof. destruct l; unfold is_empty; simpl; split; intros; congruence. Qed.

Lemma truthy_nonempty s : truthy s = true <-> s <> "".
Proof.
  unfold truthy. destruct (String.eqb_spec s ""); simpl; split; intros; congruence.
Qed.

Lemma eqb_all_false c : String.eqb c "all" = false <-> c <> "all".
Proof. destruct (String.eqb_spec c "all"); split; intros; congruence. Qed.

Ltac tier_cases :=
  repeat first
    [ progress simpl
    | match goal with
      | |- context [length (performCategorySearch ?s ?q ?c ?m)] =>
          let l := fresh "l" in
          generalize (performCategorySearch s q c m); intros l; destruct l
      end
    | match goal with |- context [truthy ?q] => destruct (truthy q) end
    | match goal with |- context [includes ?q " "] => destruct (includes q " ") end
    | match goal with
      | |- context [String.eqb ?c "all"] => destruct (String.eqb_spec c "all")
      end ].

Ltac tier_solve :=
  repeat match goal with
         | H : _ /\ _ |- _ => destruct H
         | H : (?x :: ?l) = [] |- _ => discriminate H
         | H : _ = true -> _ :: _ = [] |- _ => specialize (H eq_refl); discriminate H
         | H : ?c <> "all" -> _ |- _ =>
             match goal with Hc : c <> "all" |- _ => specialize (H Hc) end
         end;
  try congruence; try tauto.

(** C3: tier 2 (the separated scan of the same category) fires exactly
    when tier 1 is empty and the query is not empty and has a space in it;
    tier 3 (the scans of category all) fires exactly when tiers 1 and 2 are
    empty, the category is not all and the query is not empty; tier 4 (every
    service) fires exactly when the query is not empty and tiers 1 to 3 are
    empty. *)
Theorem C3_tier_conditions (services : list ODataService) (args : DiscoverArgs) :
  let d := searchServicesAndEntities services args in
  let query := query_of args in
  let category := category_of args in
  (tier2_fired d = true <->
     performCategorySearch services query category Combined = [] /\
     query <> "" /\ includes query " " = true) /\
  (tier3_fired d = true <->
     tiers12_empty services args /\ category <> "all" /\ query <> "") /\
  (tier4_fired d = true <->
     query <> "" /\ tiers123_empty services args).
Proof.
  intros d query category.
  unfold tiers123_empty, tiers12_empty. fold query category.
  unfold tier2_fired, tier3_fired, tier4_fired.
  change (d_debug d) with (st_debug (run_tiers services query category)).
  rewrite <- (truthy_nonempty query), <- (eqb_all_false category).
  unfold run_tiers, level5, level3, level2, level1, is_empty.
  tier_cases; (split; [|split]); split; intros; tier_solve;
    try (intuition congruence).
Qed.

(** C3, as the specification words it, fails: a query with a trailing
    space is one word and still starts tier 2; two words around a tab do
    not start it; and with an empty query and a category without matches
    tiers 1 and 2 are empty and the category is not all, yet tier 3 does
    not fire. *)
Lemma C3_counterexample :
  (let args := mkDiscoverArgs (Some "zzz ") None None in
   let d := searchServicesAndEntities Sample.catalog args in
   performCategorySearch Sample.catalog (query_of args) (category_of args) Combined = [] /\
   length (words (query_of args)) = 1%nat /\
   tier2_fired d = true) /\
  (let args := mkDiscoverArgs (Some ("zzz" +:+ tab +:+ "yyy")) None None in
   let d := searchServicesAndEntities Sample.catalog args in
   performCategorySearch Sample.catalog (query_of args) (category_of args) Combined = [] /\
   length (words (query_of args)) = 2%nat /\
   tier2_fired d = false) /\
  (let args := mkDiscoverArgs None (Some "sales") None in
   let d := searchServicesAndEntities Sample.catalog args in
   tiers12_empty Sample.catalog args /\
   category_of args <> "all" /\
   tier3_fired d = false /\
   d_sorted d = []).
Proof.
  repeat split; try (vm_compute; reflexivity); try (vm_compute; discriminate).
Qed.

(** ** The fallback to every service *)

Section FallbackFacts.

Variable services : list ODataService.

Lemma search_service_all mode svc :
  search_service services "" "all" mode svc = [service_match services "" "all" 0 svc].
Proof. unfold search_service. simpl. by destruct (svc_entityTypes svc). Qed.

Lemma search_all_services mode :
  performCategorySearch services "" "all" mode =
  map (service_match services "" "all" 0) services.
Proof.
  unfold performCategorySearch.
  generalize services at 2 4. intros l.
  induction l as [|svc l IH]; [done|].
  cbn [flat_map map]. by rewrite IH, search_service_all.
Qed.

End FallbackFacts.



Section FallbackState.

Variable services : list ODataService.


End FallbackState.




(** ** The limit *)

Lemma slice0_length {A} (l : list A) (n : Z) :
  0 <= n -> length (JsArray.slice0 l n) = Nat.min (Z.to_nat n) (length l).
Proof.
  intros Hn. unfold JsArray.slice0.
  destruct (Z.ltb_spec n 0); [lia|].
  rewrite length_firstn. lia.
Qed.

(** C8: the input schema of the discovery tool lets a limit through only
    when it is absent or between 1 and 20, and a call it lets through
    reaches the handler; there the limit in force is the one supplied, or 10
    when none is, so the matches kept are the first of them up to that
    limit: never more than 20, and at least one when there is a match. *)
Theorem C8_limit_in_schema_range (services : list ODataService) (args : DiscoverArgs) :
  limit_schema (arg_limit args) = true ->
  let d := searchServicesAndEntities services args in
  discover_tool services args = Some d /\
  limit_of args = default 10 (arg_limit args) /\
  1 <= limit_of args <= 20 /\
  length (d_limitedMatches d) =
    Nat.min (Z.to_nat (limit_of args)) (r_totalFound (d_result d)) /\
  (length (d_limitedMatches d) <= 20)%nat /\
  ((0 < r_totalFound (d_result d))%nat -> (1 <= length (d_limitedMatches d))%nat).
Proof.
  intros Hschema d.
  assert (Hlimit : limit_of args = default 10 (arg_limit args) /\ 1 <= limit_of args <= 20).
  { unfold limit_of, limit_schema in *. destruct (arg_limit args) as [n|]; simpl; [|lia].
    apply andb_prop in Hschema as [H1 H2].
    apply Z.leb_le in H1, H2. destruct (Z.eqb_spec n 0); lia. }
  destruct Hlimit as [Hdef Hrange].
  assert (Hlen : length (d_limitedMatches d) =
                 Nat.min (Z.to_nat (limit_of args)) (r_totalFound (d_result d))).
  { subst d. rewrite limited_is_slice. apply slice0_length. lia. }
  split; [unfold discover_tool; by rewrite Hschema|].
  repeat split; try done; try lia.
Qed.

Lemma C8_limit_in_schema_range_witness :
  let args := mkDiscoverArgs (Some "customer") None (Some 1) in
  let d := searchServicesAndEntities Sample.catalog args in
  limit_schema (arg_limit args) = true /\
  r_totalFound (d_result d) = 1%nat /\
  length (d_limitedMatches d) = Nat.min (Z.to_nat (limit_of args)) (r_totalFound (d_result d)).
Proof.
  intros args d.
  split; [reflexivity|]. split; [vm_compute; reflexivity|].
  apply (C8_limit_in_schema_range Sample.catalog args). reflexivity.
Defined.

(** C8, as the specification words it, fails: the handler does not clamp.
    With 21 services and a limit of 21 it keeps 21 matches; a limit of 0
    stands for the default 10, not for 1; with a limit of -1 and one match
    it keeps none; and the tool refuses each of these limits. *)
Lemma C8_counterexample :
  let big := repeat Sample.api_bare 21 in
  let limit n := mkDiscoverArgs None None (Some n) in
  length (d_limitedMatches (searchServicesAndEntities big (limit 21))) = 21%nat /\
  length (d_limitedMatches (searchServicesAndEntities big (limit 0))) = 10%nat /\
  (d_sorted (searchServicesAndEntities [Sample.api_bare] (limit (-1))) <> [] /\
   d_limitedMatches (searchServicesAndEntities [Sample.api_bare] (limit (-1))) = []) /\
  discover_tool big (limit 21) = None /\
  discover_tool big (limit 0) = None /\
  discover_tool big (limit (-1)) = None.
Proof.
  repeat split; try (vm_compute; reflexivity). vm_compute. discriminate.
Qed.

(** ** Key construction *)

Lemma mem_In x xs : mem x xs = true <-> In x xs.
Proof.
  unfold mem. rewrite existsb_exists. split.
  - intros (y & Hy & Heq). apply String.eqb_eq in Heq. by subst.
  - intros H. exists x. split; [done|]. apply String.eqb_refl.
Qed.

Section KeyFacts.

Variable entityType : EntityType.
Variable parameters : gmap string Value.





Hypothesis names_distinct : List.NoDup (map prop_name (et_properties entityType)).
Hypothesis keys_distinct : List.NoDup (et_keys entityType).
Hypothesis keys_are_properties :
  forall k, In k (et_keys entityType) -> In k (map prop_name (et_properties entityType)).




End KeyFacts.






(** ** Dispatch *)

Section DispatchFacts.

Variable services : list ODataService.
Variable userToken : option string.
Variable sapClient : ClientCall -> Thrown string.

Let execute := executeEntityOperation services userToken sapClient.

(** After the operation is validated and the service and the entity type
    are found, the call is the [switch] run after [setUserToken]. *)
Lemma execute_found args service entityType :
  mem (toLowerCase (a_operation args)) validOperations = true ->
  List.find (fun s => String.eqb (svc_id s) (a_serviceId args)) services = Some service ->
  List.find (fun e => String.eqb (et_name e) (a_entityName args))
            (default [] (svc_entityTypes service)) = Some entityType ->
  execute args =
  match dispatch sapClient (toLowerCase (a_operation args)) (a_entityName args)
          service entityType (default ∅ (a_parameters args))
          (build_queryOptions args) [SetUserToken (session_token userToken args)] with
  | (tr, Ok (operationDescription, data)) => (tr, Success operationDescription data)
  | (tr, Throw message) => (tr, failed args message)
  end.
Proof.
  intros Hop Hsvc Hent. unfold execute, executeEntityOperation.
  rewrite Hop, Hsvc, Hent. reflexivity.
Qed.

(** Outside that case no call is made on the client. *)
Lemma execute_not_found args :
  mem (toLowerCase (a_operation args)) validOperations = false \/
  List.find (fun s => String.eqb (svc_id s) (a_serviceId args)) services = None \/
  (exists service,
     List.find (fun s => String.eqb (svc_id s) (a_serviceId args)) services = Some service /\
     List.find (fun e => String.eqb (et_name e) (a_entityName args))
               (default [] (svc_entityTypes service)) = None) ->
  fst (execute args) = [].
Proof.
  unfold execute, executeEntityOperation.
  intros [Hop|[Hsvc|(service & Hsvc & Hent)]].
  - by rewrite Hop.
  - destruct (mem _ _); [|done]. by rewrite Hsvc.
  - destruct (mem _ _); [|done]. by rewrite Hsvc, Hent.
Qed.

End DispatchFacts.

(** C1: when the operation is create, update or delete (in any casing) and
    the flag of the entity type for it is false, the call ends in the error
    that the entity does not support the operation; the only call made on
    the client is the local [setUserToken], and no call that reaches the
    remote service is made. *)
Theorem C1_capability_gate (services : list ODataService) (userToken : option string)
    (sapClient : ClientCall -> Thrown string) (args : ExecuteArgs)
    (service : ODataService) (entityType : EntityType) :
  List.find (fun s => String.eqb (svc_id s) (a_serviceId args)) services = Some service ->
  List.find (fun e => String.eqb (et_name e) (a_entityName args))
            (default [] (svc_entityTypes service)) = Some entityType ->
  capability_flag (toLowerCase (a_operation args)) entityType = Some false ->
  let run := executeEntityOperation services userToken sapClient args in
  run = ([SetUserToken (session_token userToken args)],
         failed args ("Entity '" +:+ a_entityName args +:+ "' does not support " +:+
                      toLowerCase (a_operation args) +:+ " operations")) /\
  List.filter is_network_call (fst run) = [].
Proof.
  intros Hsvc Hent Hflag run.
  assert (Hrun : run = ([SetUserToken (session_token userToken args)],
                        failed args ("Entity '" +:+ a_entityName args +:+ "' does not support " +:+
                                     toLowerCase (a_operation args) +:+ " operations"))).
  { subst run. unfold capability_flag in Hflag.
    destruct (String.eqb_spec (toLowerCase (a_operation args)) "create") as [Hop|_];
      [|destruct (String.eqb_spec (toLowerCase (a_operation args)) "update") as [Hop|_];
        [|destruct (String.eqb_spec (toLowerCase (a_operation args)) "delete") as [Hop|_];
          [|discriminate]]];
      injection Hflag as Hflag;
      (rewrite (execute_found services userToken sapClient args service entityType);
       [|by rewrite Hop|done|done]);
      rewrite Hop; unfold dispatch; simpl; by rewrite Hflag. }
  split; [exact Hrun|]. by rewrite Hrun.
Qed.

Lemma C1_capability_gate_witness :
  let args := mkExecuteArgs "API_BP" "Customer" "DELETE" (Some {[ "ID" := VStr "1" ]})
                None None None None None None None None in
  List.filter is_network_call
    (fst (executeEntityOperation Sample.catalog (Some "jwt") (fun _ => Ok "{}") args)) = [].
Proof.
  intros args.
  apply (C1_capability_gate Sample.catalog (Some "jwt") (fun _ => Ok "{}") args
           Sample.api_bp Sample.customer); reflexivity.
Defined.

(** ** Update payload *)

Lemma strip_keys_lookup keys (m : gmap string Value) k :
  strip_keys keys m !! k = if mem k keys then None else m !! k.
Proof.
  unfold strip_keys. revert m.
  induction keys as [|k0 keys IH]; intros m; [done|].
  cbn [foldl]. rewrite IH. unfold mem. cbn [existsb].
  fold (mem k keys). destruct (mem k keys); [by rewrite orb_true_r|].
  rewrite orb_false_r. destruct (String.eqb_spec k k0) as [->|Hne].
  - apply lookup_delete_eq.
  - by apply lookup_delete_ne.
Qed.

Lemma strip_keys_key keys (m : gmap string Value) k :
  In k keys -> strip_keys keys m !! k = None.
Proof. intros Hk. rewrite strip_keys_lookup. apply mem_In in Hk. by rewrite Hk. Qed.

Lemma strip_keys_other keys (m : gmap string Value) k :
  ~ In k keys -> strip_keys keys m !! k = m !! k.
Proof.
  intros Hk. rewrite strip_keys_lookup.
  destruct (mem k keys) eqn:Hm; [|done]. by apply mem_In in Hm.
Qed.

Lemma strip_keys_only_keys keys (m : gmap string Value) :
  (forall k, is_Some (m !! k) -> In k keys) -> strip_keys keys m = ∅.
Proof.
  intros Hdom. apply map_eq. intros k. rewrite lookup_empty, strip_keys_lookup.
  destruct (mem k keys) eqn:Hm; [done|].
  destruct (m !! k) as [v|] eqn:Hk; [|done].
  assert (In k keys) as Hin by (apply Hdom; eauto).
  apply mem_In in Hin. congruence.
Qed.

(** The update calls of the [switch]: one at most, after the gate and the
    key construction, with the payload stripped of the keys. *)
Lemma dispatch_update sapClient op name svc e params qo tr0 url set key data :
  In (UpdateEntity url set key data) (fst (dispatch sapClient op name svc e params qo tr0)) ->
  In (UpdateEntity url set key data) tr0 \/
  (op = "update" /\ et_updatable e = true /\ buildKeyValue e params = Ok key /\
   url = svc_url svc /\ set = et_entitySet e /\
   data = strip_keys (et_keys e) params).
Proof.
  unfold dispatch, bind, lift, client, ret, throw.
  repeat match goal with
         | |- context [String.eqb op ?s] => destruct (String.eqb_spec op s)
         | |- context [negb ?b] => destruct b eqn:?; cbn [negb]
         | |- context [buildKeyValue e params] => destruct (buildKeyValue e params)
         | |- context [sapClient ?c] => destruct (sapClient c)
         end;
    cbn [fst]; rewrite ?in_app_iff; cbn [In];
    intros H; repeat destruct H as [H|H]; try discriminate H; try contradiction; eauto;
    try (injection H as <- <- <- <-; right; by repeat split).
Qed.

(** C5: every update call an execute call makes on the client carries the
    parameters with every declared key of the entity type removed: no key is
    left in the payload, the other entries are kept, and when the
    parameters hold nothing but keys the payload is empty. *)
Theorem C5_update_strips_keys (services : list ODataService) (userToken : option string)
    (sapClient : ClientCall -> Thrown string) (args : ExecuteArgs)
    (url : string) (set : option string) (key : string) (data : gmap string Value) :
  In (UpdateEntity url set key data)
     (fst (executeEntityOperation services userToken sapClient args)) ->
  let parameters := default ∅ (a_parameters args) in
  exists service entityType,
    List.find (fun s => String.eqb (svc_id s) (a_serviceId args)) services = Some service /\
    List.find (fun e => String.eqb (et_name e) (a_entityName args))
              (default [] (svc_entityTypes service)) = Some entityType /\
    toLowerCase (a_operation args) = "update" /\
    data = strip_keys (et_keys entityType) parameters /\
    (forall k, In k (et_keys entityType) -> data !! k = None) /\
    (forall k, ~ In k (et_keys entityType) -> data !! k = parameters !! k) /\
    ((forall k, is_Some (parameters !! k) -> In k (et_keys entityType)) -> data = ∅).
Proof.
  intros Hin parameters.
  destruct (mem (toLowerCase (a_operation args)) validOperations) eqn:Hop.
  2: { rewrite execute_not_found in Hin by eauto. destruct Hin. }
  destruct (List.find (fun s => String.eqb (svc_id s) (a_serviceId args)) services)
    as [service|] eqn:Hsvc.
  2: { rewrite execute_not_found in Hin by eauto. destruct Hin. }
  destruct (List.find (fun e => String.eqb (et_name e) (a_entityName args))
                      (default [] (svc_entityTypes service))) as [entityType|] eqn:Hent.
  2: { rewrite execute_not_found in Hin by eauto 6. destruct Hin. }
  rewrite (execute_found services userToken sapClient args service entityType) in Hin by done.
  assert (Hd : In (UpdateEntity url set key data)
                 (fst (dispatch sapClient (toLowerCase (a_operation args)) (a_entityName args)
                         service entityType parameters (build_queryOptions args)
                         [SetUserToken (session_token userToken args)]))).
  { subst parameters. destruct (dispatch _ _ _ _ _ _ _ _) as [tr [[d r]|msg]]; exact Hin. }
  apply dispatch_update in Hd as [[Hd|[]]|(Hupd & _ & _ & _ & _ & Hdata)]; [discriminate|].
  exists service, entityType. repeat split; try done; subst data.
  - intros k. apply strip_keys_key.
  - intros k. apply strip_keys_other.
  - apply strip_keys_only_keys.
Qed.

Lemma C5_update_strips_keys_witness :
  let args := mkExecuteArgs "API_BP" "Customer" "update" (Some {[ "ID" := VStr "1" ]})
                None None None None None None None None in
  fst (executeEntityOperation Sample.catalog None (fun _ => Ok "{}") args) =
    [SetUserToken None; UpdateEntity "/sap/opu/odata/sap/API_BP" (Some "Customers") "1" ∅] /\
  (∅ : gmap string Value) !! "ID" = None.
Proof.
  intros args. split; [vm_compute; reflexivity|].
  destruct (C5_update_strips_keys Sample.catalog None (fun _ => Ok "{}") args
              "/sap/opu/odata/sap/API_BP" (Some "Customers") "1" ∅)
    as (service & entityType & Hsvc & Hent & _ & _ & Hkeys & _).
  { vm_compute. right. left. reflexivity. }
  injection Hsvc as <-. injection Hent as <-.
  apply Hkeys. simpl. by left.
Defined.

(** ** The operation name *)

Lemma lower_ascii_idem c : lower_ascii (lower_ascii c) = lower_ascii c.
Proof. destruct c as [[] [] [] [] [] [] [] []]; reflexivity. Qed.

Lemma toLowerCase_idem s : toLowerCase (toLowerCase s) = toLowerCase s.
Proof.
  induction s as [|c s IH]; [done|]. simpl. by rewrite lower_ascii_idem, IH.
Qed.

(** C10: the operation name is lowercased before it is validated. A name
    that is none of the five after lowercasing gives, with no call on the
    client, the error that names the allowed operations. A name that is one
    of the five in any casing makes the calls, and has the outcome, of the
    call with the lowercase name; and, on an entity type that is found, it
    runs the operation of that name: after [setUserToken] the one call on
    the client is the read of the entity set, the read of one entity, the
    create, the update or the delete (when the entity type allows it and
    the key can be built), and the response is the success with the data
    of that call, or the failure with the message it threw. *)
Theorem C10_operation_case_insensitive (services : list ODataService)
    (userToken : option string) (sapClient : ClientCall -> Thrown string)
    (args : ExecuteArgs) :
  let execute := executeEntityOperation services userToken sapClient in
  let lower := toLowerCase (a_operation args) in
  (~ In lower ["read"; "read-single"; "create"; "update"; "delete"] ->
   execute args =
     ([], IsError ("ERROR: Failed to execute " +:+ a_operation args +:+ " operation on " +:+
                   a_entityName args +:+ ": Invalid operation: " +:+ lower +:+
                   ". Valid operations are: read, read-single, create, update, delete"))) /\
  (In lower ["read"; "read-single"; "create"; "update"; "delete"] ->
   fst (execute args) = fst (execute (with_operation lower args)) /\
   same_outcome args (with_operation lower args)
     (snd (execute args)) (snd (execute (with_operation lower args)))) /\
  (forall service entityType,
     List.find (fun s => String.eqb (svc_id s) (a_serviceId args)) services = Some service ->
     List.find (fun e => String.eqb (et_name e) (a_entityName args))
               (default [] (svc_entityTypes service)) = Some entityType ->
     let url := svc_url service in
     let entitySet := et_entitySet entityType in
     let entityName := a_entityName args in
     let parameters := default ∅ (a_parameters args) in
     let answer call operationDescription :=
       ([SetUserToken (session_token userToken args); call],
        match sapClient call with
        | Ok data => Success operationDescription (ClientData data)
        | Throw message => failed args message
        end) in
     (lower = "read" ->
      execute args =
        answer (ReadEntitySet url entitySet (build_queryOptions args) false)
               (read_description entityName (build_queryOptions args))) /\
     (lower = "read-single" ->
      forall key, buildKeyValue entityType parameters = Ok key ->
      execute args =
        answer (ReadEntity url entitySet key false)
               ("Reading single " +:+ entityName +:+ " with key: " +:+ key)) /\
     (lower = "create" -> et_creatable entityType = true ->
      execute args =
        answer (CreateEntity url entitySet parameters) ("Creating new " +:+ entityName)) /\
     (lower = "update" -> et_updatable entityType = true ->
      forall key, buildKeyValue entityType parameters = Ok key ->
      execute args =
        answer (UpdateEntity url entitySet key (strip_keys (et_keys entityType) parameters))
               ("Updating " +:+ entityName +:+ " with key: " +:+ key)) /\
     (lower = "delete" -> et_deletable entityType = true ->
      forall key, buildKeyValue entityType parameters = Ok key ->
      execute args =
        ([SetUserToken (session_token userToken args); DeleteEntity url entitySet key],
         match sapClient (DeleteEntity url entitySet key) with
         | Ok _ =>
             Success ("Deleting " +:+ entityName +:+ " with key: " +:+ key)
               (DeleteAck ("Successfully deleted " +:+ entityName +:+ " with key: " +:+ key))
         | Throw message => failed args message
         end))).
Proof.
  intros execute lower. split; [|split].
  - intros Hnot. subst execute. unfold executeEntityOperation. fold lower.
    destruct (mem lower validOperations) eqn:Hm; [|reflexivity].
    apply mem_In in Hm. contradiction.
  - intros Hin. apply mem_In in Hin.
    subst execute lower. unfold executeEntityOperation.
    cbn [with_operation a_operation a_serviceId a_entityName a_parameters].
    rewrite toLowerCase_idem.
    change (build_queryOptions (with_operation _ args)) with (build_queryOptions args).
    change (session_token userToken (with_operation _ args))
      with (session_token userToken args).
    change validOperations with ["read"; "read-single"; "create"; "update"; "delete"].
    rewrite Hin. cbn [negb].
    destruct (List.find _ services) as [service|]; [|split; [done|by left]].
    destruct (List.find _ (default [] (svc_entityTypes service))) as [entityType|];
      [|split; [done|by left]].
    destruct (bind _ _ _) as [tr [[d r]|msg]]; cbn [fst snd].
    + split; [done|by left].
    + split; [done|]. right. by exists msg.
  - intros service entityType Hsvc Hent url entitySet entityName parameters answer.
    subst execute lower answer url entitySet entityName parameters.
    repeat split.
    + intros Hop.
      rewrite (execute_found services userToken sapClient args service entityType);
        [|by rewrite Hop|done|done].
      rewrite Hop. unfold dispatch, bind, client, ret.
      cbn [String.eqb Ascii.eqb Bool.eqb app]. by destruct (sapClient _).
    + intros Hop key Hkey.
      rewrite (execute_found services userToken sapClient args service entityType);
        [|by rewrite Hop|done|done].
      rewrite Hop. unfold dispatch, bind, lift, client, ret.
      cbn [String.eqb Ascii.eqb Bool.eqb]. rewrite Hkey. cbn [app].
      by destruct (sapClient _).
    + intros Hop Hflag.
      rewrite (execute_found services userToken sapClient args service entityType);
        [|by rewrite Hop|done|done].
      rewrite Hop. unfold dispatch, bind, client, ret.
      cbn [String.eqb Ascii.eqb Bool.eqb]. rewrite Hflag. cbn [negb app].
      by destruct (sapClient _).
    + intros Hop Hflag key Hkey.
      rewrite (execute_found services userToken sapClient args service entityType);
        [|by rewrite Hop|done|done].
      rewrite Hop. unfold dispatch, bind, lift, client, ret.
      cbn [String.eqb Ascii.eqb Bool.eqb]. rewrite Hflag, Hkey. cbn [negb app].
      by destruct (sapClient _).
    + intros Hop Hflag key Hkey.
      rewrite (execute_found services userToken sapClient args service entityType);
        [|by rewrite Hop|done|done].
      rewrite Hop. unfold dispatch, bind, lift, client, ret.
      cbn [String.eqb Ascii.eqb Bool.eqb]. rewrite Hflag, Hkey. cbn [negb app].
      by destruct (sapClient _).
Qed.

Lemma C10_operation_case_insensitive_witness :
  let read := mkExecuteArgs "API_BP" "Customer" "READ" None
                None None None None (Some (mkSafeInteger 5 I)) None None None in
  let bad := mkExecuteArgs "API_BP" "Customer" "Upsert" None
               None None None None None None None None in
  let execute := executeEntityOperation Sample.catalog None (fun _ => Ok "[]") in
  fst (execute read) = fst (execute (with_operation "read" read)) /\
  execute bad =
    ([], IsError "ERROR: Failed to execute Upsert operation on Customer: Invalid operation: upsert. Valid operations are: read, read-single, create, update, delete") /\
  execute read =
    ([SetUserToken None;
      ReadEntitySet "/sap/opu/odata/sap/API_BP" (Some "Customers") (build_queryOptions read) false],
     Success "Reading Customer entities (top 5)" (ClientData "[]")).
Proof.
  intros read bad execute. split; [|split].
  - apply (C10_operation_case_insensitive Sample.catalog None (fun _ => Ok "[]") read).
    simpl. tauto.
  - apply (C10_operation_case_insensitive Sample.catalog None (fun _ => Ok "[]") bad).
    simpl. intuition discriminate.
  - destruct (C10_operation_case_insensitive Sample.catalog None (fun _ => Ok "[]") read)
      as (_ & _ & Hrun).
    destruct (Hrun Sample.api_bp Sample.customer eq_refl eq_refl) as (Hread & _).
    exact (Hread eq_refl).
Defined.

Example execute_READ :
  executeEntityOperation Sample.catalog (Some "jwt") (fun _ => Ok "[]")
    (mkExecuteArgs "API_BP" "Customer" "READ" None None None None None
       (Some (mkSafeInteger 5 I)) None None None) =
  ([SetUserToken (Some "jwt");
    ReadEntitySet "/sap/opu/odata/sap/API_BP" (Some "Customers")
      {[ "$top" := VNum (mkSafeInteger 5 I) ]} false],
   Success "Reading Customer entities (top 5)" (ClientData "[]")).
Proof. vm_compute. reflexivity. Qed.

(** ** Destinations *)

Section DestinationFacts.

Variable config_get : string -> string -> string.
Variable env : ProcessEnv.
Variable parse_destinations : string -> Thrown (list EnvDestination).
Variable sdk_getDestination : string -> option string -> Thrown (option HttpDestination).

(** The discovery resolution takes no token from its caller: every lookup
    it makes carries the JWT of the process environment, if any. *)
Lemma discovery_lookup_jwt destinationName jwt :
  In (SdkGetDestination destinationName jwt)
     (fst (getDiscoveryDestination config_get env parse_destinations sdk_getDestination)) ->
  jwt = getJWT env.
Proof.
  unfold getDiscoveryDestination, getDestination.
  destruct (from_environment _ _ _); cbn [fst In or_else].
  - intros [H|[]]. discriminate.
  - intros [H|[H|[]]]; [discriminate|]. by injection H.
Qed.

(** With no [USER_JWT] in the environment the lookup is made without a
    token. *)
Lemma discovery_technical destinationName jwt :
  env_USER_JWT env = None ->
  In (SdkGetDestination destinationName jwt)
     (fst (getDiscoveryDestination config_get env parse_destinations sdk_getDestination)) ->
  jwt = None.
Proof.
  intros Henv Hin. apply discovery_lookup_jwt in Hin. subst jwt.
  unfold getJWT. by rewrite Henv.
Qed.

End DestinationFacts.

(** C7: with [USER_JWT] set in the environment and no endpoint listed
    there, the discovery resolution logs that it fetches without a JWT and
    then makes the lookup with that JWT; against a destination service that
    tells the two apart, two resolutions that differ only in that token end
    at different endpoints. *)
Theorem C7_discovery_attaches_env_jwt :
  getDiscoveryDestination Landscape.no_config Landscape.env_without_jwt
      Landscape.no_parse Landscape.sdk =
    ([DebugFetching "SAP_SYSTEM" false; SdkGetDestination "SAP_SYSTEM" None],
     Ok Landscape.technical) /\
  getDiscoveryDestination Landscape.no_config Landscape.env_with_jwt
      Landscape.no_parse Landscape.sdk =
    ([DebugFetching "SAP_SYSTEM" false; SdkGetDestination "SAP_SYSTEM" (Some "eyJ.user.jwt")],
     Ok Landscape.propagated) /\
  Landscape.technical <> Landscape.propagated.
Proof. repeat split; try reflexivity. discriminate. Qed.

(** * Further properties of the registry and of the destination service *)

(** ** Categorizer *)

(** X1: every service gets a list of tags that is not empty; it is either
    the single tag all, or a selection of the six topic tags in their fixed
    order, each at most once, and then all is not among them. *)
Theorem X1_categorize_tags (service : ODataService) :
  categorize service <> [] /\
  (categorize service = ["all"] \/
   (sublist (categorize service)
      ["business-partner"; "sales"; "finance"; "procurement"; "hr"; "logistics"] /\
    ~ In "all" (categorize service))) /\
  (forall c, In c (categorize service) -> In c validCategories).
Proof.
  unfold categorize.
  repeat match goal with
         | |- context [if ?b then [?t] else []] => destruct b
         end;
    cbn [app];
    (split; [discriminate|]); split;
    try (left; reflexivity);
    try (right; split;
         [repeat first [apply sublist_nil | apply sublist_skip | apply sublist_cons]
         |simpl; intuition discriminate]);
    intros c; simpl; intuition.
Qed.

Lemma categories_fold_lookup (l : list ODataService) (m0 : gmap string (list string)) id :
  foldl (fun m s => <[svc_id s := categorize s]> m) m0 l !! id =
  match last_with_id id l with
  | Some s => Some (categorize s)
  | None => m0 !! id
  end.
Proof.
  revert m0. induction l as [|x l IH]; intros m0; [done|].
  cbn [foldl last_with_id]. rewrite IH.
  destruct (last_with_id id l); [done|].
  destruct (String.eqb_spec (svc_id x) id) as [<-|Hne].
  - apply lookup_insert_eq.
  - by apply lookup_insert_ne.
Qed.

Lemma last_with_id_Some id l s :
  last_with_id id l = Some s -> In s l /\ svc_id s = id.
Proof.
  induction l as [|x l IH]; [done|]. cbn [last_with_id].
  destruct (last_with_id id l) as [s'|].
  - intros [= <-]. destruct IH as [Hin Hid]; [done|]. split; [by right|done].
  - destruct (String.eqb_spec (svc_id x) id); [|done].
    intros [= <-]. split; [by left|done].
Qed.

Lemma last_with_id_None id l :
  last_with_id id l = None -> forall s, In s l -> svc_id s <> id.
Proof.
  induction l as [|x l IH]; [done|]. cbn [last_with_id].
  destruct (last_with_id id l) as [s'|]; [done|].
  destruct (String.eqb_spec (svc_id x) id); [done|].
  intros _ s [<-|Hin]; [done|]. by apply IH.
Qed.

Lemma distinct_ids_same (l : list ODataService) s s' :
  List.NoDup (map svc_id l) -> In s l -> In s' l -> svc_id s = svc_id s' -> s = s'.
Proof.
  induction l as [|x l IH]; [done|]. cbn [map]. intros Hnd.
  apply List.NoDup_cons_iff in Hnd as [Hx Hl].
  intros [<-|Hs] [<-|Hs'] Hid; try done.
  - exfalso. apply Hx. rewrite Hid. by apply in_map.
  - exfalso. apply Hx. rewrite <- Hid. by apply in_map.
  - by apply IH.
Qed.

Lemma last_with_id_all_other id l :
  (forall x, In x l -> svc_id x <> id) -> last_with_id id l = None.
Proof.
  intros Hother. destruct (last_with_id id l) as [s|] eqn:Hlast; [|done].
  apply last_with_id_Some in Hlast as [Hin Hid]. by destruct (Hother s).
Qed.

Lemma last_with_id_last id before s after :
  svc_id s = id -> (forall x, In x after -> svc_id x <> id) ->
  last_with_id id (before ++ s :: after) = Some s.
Proof.
  intros Hid Hafter. induction before as [|x before IH].
  - cbn [app last_with_id]. rewrite last_with_id_all_other by done.
    by rewrite Hid, String.eqb_refl.
  - cbn [app last_with_id]. by rewrite IH.
Qed.

(** X2: the categories kept for a service are the tags of the last service
    of the catalog with its id, whatever services come before it; so they
    are the tags of the service itself when it is in the catalog and the
    ids of the catalog are distinct; a service whose id is not in the
    catalog has no categories. *)
Theorem X2_categories_of_catalog (services : list ODataService) (svc : ODataService) :
  (forall before last after,
     services = before ++ last :: after ->
     svc_id last = svc_id svc ->
     (forall s, In s after -> svc_id s <> svc_id svc) ->
     categories_of services svc = categorize last) /\
  (In svc services -> List.NoDup (map svc_id services) ->
   categories_of services svc = categorize svc) /\
  ((forall s, In s services -> svc_id s <> svc_id svc) ->
   categories_of services svc = []).
Proof.
  unfold categories_of, serviceCategories, categorizeServices.
  rewrite categories_fold_lookup, lookup_empty. split; [|split].
  - intros before last after -> Hid Hafter.
    by rewrite (last_with_id_last (svc_id svc) before last after).
  - intros Hin Hnd. destruct (last_with_id (svc_id svc) services) as [s|] eqn:Hlast.
    + apply last_with_id_Some in Hlast as [Hs Hid].
      by rewrite (distinct_ids_same services s svc).
    + exfalso. by apply (last_with_id_None _ _ Hlast svc).
  - intros Hnone. by rewrite last_with_id_all_other.
Qed.

Lemma X2_categories_of_catalog_witness :
  let orders := mkService "API_X" "Sales orders" "" "/sap/opu/odata/sap/API_X" None in
  let vendors := mkService "API_X" "Vendors" "" "/sap/opu/odata/sap/API_X;v=2" None in
  categorize orders = ["sales"] /\
  categories_of [orders; Sample.api_bp; vendors] orders = ["procurement"] /\
  categories_of Sample.catalog Sample.api_bp = ["business-partner"] /\
  categories_of Sample.catalog Sample.api_bare = [].
Proof.
  intros orders vendors.
  destruct (X2_categories_of_catalog [orders; Sample.api_bp; vendors] orders) as [Hlast _].
  destruct (X2_categories_of_catalog Sample.catalog Sample.api_bp) as (_ & Hin & _).
  destruct (X2_categories_of_catalog Sample.catalog Sample.api_bare) as (_ & _ & Hout).
  split; [reflexivity|]. split; [|split].
  - rewrite (Hlast [orders; Sample.api_bp] vendors []); [reflexivity|reflexivity|reflexivity|].
    intros s [].
  - rewrite Hin; [reflexivity|simpl; by left|].
    simpl. repeat constructor. simpl. tauto.
  - apply Hout. simpl. intros s [<-|[]]. discriminate.
Defined.

(** ** Matching *)

Lemma append_cons c s t : String c s +:+ t = String c (s +:+ t).
Proof. reflexivity. Qed.

Lemma append_nil_r s : s +:+ "" = s.
Proof. induction s as [|c s IH]; [done|]. by rewrite append_cons, IH. Qed.

Lemma append_assoc a b c : (a +:+ b) +:+ c = a +:+ (b +:+ c).
Proof. induction a as [|x a IH]; [done|]. by rewrite !append_cons, IH. Qed.

Lemma prefix_spec s t : String.prefix s t = true <-> exists b, t = s +:+ b.
Proof.
  revert t. induction s as [|c s IH]; intros t.
  - destruct t; simpl; split; eauto.
  - destruct t as [|d t]; simpl.
    + split; [done|]. intros [b Hb]. discriminate.
    + destruct (Ascii.ascii_dec c d) as [->|Hne].
      * rewrite IH. split; intros [b Hb]; exists b; rewrite append_cons in *; congruence.
      * split; [done|]. intros [b Hb]. rewrite append_cons in Hb. congruence.
Qed.

Lemma includes_spec t s : includes t s = true <-> exists a b, t = a +:+ s +:+ b.
Proof.
  induction t as [|c t IH]; cbn [includes].
  - rewrite prefix_spec. split.
    + intros [b Hb]. exists "", b. done.
    + intros (a & b & Hab). destruct a; [|discriminate]. eauto.
  - rewrite orb_true_iff, prefix_spec, IH. split.
    + intros [[b Hb]|(a & b & Hab)].
      * exists "", b. done.
      * exists (String c a), b. by rewrite append_cons, Hab.
    + intros (a & b & Hab). destruct a as [|d a].
      * left. eauto.
      * right. rewrite append_cons in Hab. injection Hab as _ Hab. eauto.
Qed.

Lemma includes_trans t q w :
  includes t q = true -> includes q w = true -> includes t w = true.
Proof.
  rewrite !includes_spec. intros (a & b & ->) (a' & b' & ->).
  exists (a +:+ a'), (b' +:+ b). by rewrite !append_assoc.
Qed.

Lemma split_ws_part s cur w :
  In w (split_ws s cur) ->
  (exists p b, w = cur +:+ p /\ s = p +:+ b) \/ (exists a b, s = a +:+ w +:+ b).
Proof.
  revert cur. induction s as [|c s IH]; intros cur; cbn [split_ws].
  - intros [<-|[]]. left. exists "", "". by rewrite append_nil_r.
  - destruct (is_space c).
    + intros [<-|Hin].
      * left. exists "", (String c s). by rewrite append_nil_r.
      * right. destruct (IH "" Hin) as [(p & b & -> & ->)|(a & b & ->)].
        -- exists (String c ""), b. done.
        -- exists (String c a), b. done.
    + intros Hin. destruct (IH _ Hin) as [(p & b & -> & ->)|(a & b & ->)].
      * left. exists (String c p), b. by rewrite append_assoc.
      * right. exists (String c a), b. done.
Qed.

Lemma words_in_query q w : In w (words q) -> includes q w = true.
Proof.
  unfold words. intros Hin. apply filter_In in Hin as [Hin _].
  apply includes_spec.
  destruct (split_ws_part q "" w Hin) as [(p & b & -> & ->)|Hab]; [|done].
  exists "", b. done.
Qed.

Lemma split_ws_no_space s cur : no_space s = true -> split_ws s cur = [cur +:+ s].
Proof.
  revert cur. induction s as [|c s IH]; intros cur; cbn [split_ws no_space].
  - by rewrite append_nil_r.
  - intros H. apply andb_prop in H as [Hc Hs].
    destruct (is_space c); [done|]. rewrite IH by done. by rewrite append_assoc.
Qed.

(** X3: a text the combined mode accepts for a query with at least one
    word is accepted by the separated mode too; and for a query that is one
    word, with no whitespace in it, the two modes accept the same texts. *)
Theorem X3_separated_accepts_more (text query : string) :
  (words query <> [] ->
   matchesQuery text query Combined = true ->
   matchesQuery text query Separated = true) /\
  (query <> "" -> no_space query = true ->
   matchesQuery text query Separated = matchesQuery text query Combined).
Proof.
  unfold matchesQuery. split.
  - intros Hwords. destruct (truthy query); [|done]. cbn [negb].
    intros Hc.
    assert (Hall : forall w, In w (words query) -> includes (toLowerCase text) w = true).
    { intros w Hw. eapply includes_trans; [exact Hc|]. by apply words_in_query. }
    destruct (words query) as [|w [|w2 ws]]; [done| |].
    + apply Hall. by left.
    + apply forallb_forall. exact Hall.
  - intros Hq Hns. apply truthy_nonempty in Hq as Ht. rewrite Ht. cbn [negb].
    unfold words. rewrite split_ws_no_space by done.
    change ("" +:+ query) with query. cbn [List.filter].
    destruct (String.eqb_spec query ""); [done|]. reflexivity.
Qed.

Lemma X3_separated_accepts_more_witness :
  matchesQuery "UserParameters" "user" Separated = true /\
  matchesQuery "User Parameters" "user parameters" Separated = true.
Proof.
  split.
  - destruct (X3_separated_accepts_more "UserParameters" "user") as [_ Hsame].
    rewrite Hsame; [reflexivity|discriminate|reflexivity].
  - destruct (X3_separated_accepts_more "User Parameters" "user parameters") as [Hmore _].
    apply Hmore; [vm_compute; discriminate|reflexivity].
Defined.

(** ** The scan of the catalog *)

Section ScanFacts.

Variable query : string.
Variable searchMode : SearchMode.

Let hit (p : Property) : bool := matchesQuery (toLowerCase (prop_name p)) query searchMode.

Lemma scan_properties_fold props entityScore matched :
  foldl (fun '(entityScore, matchedProperties) prop =>
           if matchesQuery (toLowerCase (prop_name prop)) query searchMode
           then (if entityScore =? 0 then 75 else entityScore,
                 matchedProperties ++ [prop_name prop])
           else (entityScore, matchedProperties))
        (entityScore, matched) props =
  (if (entityScore =? 0) && existsb hit props then 75 else entityScore,
   matched ++ map prop_name (List.filter hit props)).
Proof.
  revert entityScore matched. induction props as [|p props IH]; intros sc mp.
  - cbn [foldl existsb List.filter map]. by rewrite andb_false_r, app_nil_r.
  - cbn [foldl existsb List.filter]. unfold hit at 1 3. fold (hit p).
    destruct (hit p) eqn:Hp; rewrite IH.
    + cbn [map orb]. rewrite <- List.app_assoc. cbn [app]. f_equal.
      destruct (sc =? 0) eqn:Hsc; cbn [andb]; [done|]. by rewrite Hsc.
    + done.
Qed.

Lemma scan_properties_spec entityScore0 props :
  scan_properties query searchMode entityScore0 props =
  (if (entityScore0 =? 0) && existsb hit props then 75 else entityScore0,
   map prop_name (List.filter hit props)).
Proof. unfold scan_properties. by rewrite scan_properties_fold. Qed.

End ScanFacts.

Lemma existsb_filter {X} (f : X -> bool) (l : list X) :
  existsb f l = negb (is_empty (List.filter f l)).
Proof.
  induction l as [|x l IH]; [reflexivity|].
  cbn [existsb List.filter]. destruct (f x); [reflexivity|]. exact IH.
Qed.

(** X4: for one entity type and a query, a match of the entity name gives
    one match of kind entity with score 0.95, whatever its properties;
    otherwise, when some property name matches, it gives one match of kind
    property with score 0.75 whose reason lists the matching property names
    in the order of the property list; otherwise it gives no match. In each
    match the entity is carried with all its properties. *)
Theorem X4_entity_match_kinds (query : string) (searchMode : SearchMode)
    (service : ODataService) (entity : EntityType) :
  let name_hit := matchesQuery (toLowerCase (et_name entity)) query searchMode in
  let hits :=
    List.filter (fun p => matchesQuery (toLowerCase (prop_name p)) query searchMode)
                (et_properties entity) in
  (name_hit = true ->
   exists m, entity_matches query searchMode service entity = [m] /\
     m_type m = TEntity /\ m_score m = 95 /\ m_entity m = Some (entity_view entity)) /\
  (name_hit = false -> hits <> [] ->
   exists m, entity_matches query searchMode service entity = [m] /\
     m_type m = TProperty /\ m_score m = 75 /\ m_entity m = Some (entity_view entity) /\
     m_matchReason m =
       "Properties [" +:+ join ", " (map prop_name hits) +:+ "] match '" +:+ query +:+ "'") /\
  (name_hit = false -> hits = [] ->
   entity_matches query searchMode service entity = []).
Proof.
  intros name_hit hits. unfold entity_matches. fold name_hit.
  rewrite scan_properties_spec. fold hits.
  rewrite existsb_filter. fold hits. repeat split.
  - intros ->. cbn. eauto 6.
  - intros -> Hne. destruct hits; [done|]. cbn. eauto 8.
  - intros -> ->. reflexivity.
Qed.

Lemma X4_entity_match_kinds_witness :
  exists m, entity_matches "mail" Combined Sample.api_bp Sample.customer = [m] /\
    m_type m = TProperty /\ m_score m = 75 /\
    m_matchReason m = "Properties [Email] match 'mail'".
Proof.
  destruct (X4_entity_match_kinds "mail" Combined Sample.api_bp Sample.customer)
    as (_ & Hprop & _).
  destruct Hprop as (m & Hm & Ht & Hs & _ & Hr); [reflexivity|vm_compute; discriminate|].
  exists m. repeat split; try done.
Defined.

(** X5: every match of a scan has one of the six scores, between 0.5 and
    0.95, and its kind goes with its score: a service match carries the
    entities of the service and scores 0.5 when the query is empty, and 0.9,
    0.85 or 0.7 otherwise; an entity match scores 0.95 and a property match
    0.75, each carries its entity, and there are none for an empty query. *)
Theorem X5_match_scores (services : list ODataService) (query category : string)
    (searchMode : SearchMode) (m : Match) :
  In m (performCategorySearch services query category searchMode) ->
  50 <= m_score m <= 95 /\
  ((m_type m = TService /\ is_Some (m_entities m) /\
    ((query = "" /\ m_score m = 50) \/ (query <> "" /\ In (m_score m) [90; 85; 70]))) \/
   (query <> "" /\ m_type m = TEntity /\ m_score m = 95 /\ is_Some (m_entity m)) \/
   (query <> "" /\ m_type m = TProperty /\ m_score m = 75 /\ is_Some (m_entity m))).
Proof.
  unfold performCategorySearch. rewrite in_flat_map. intros (svc & _ & Hm).
  unfold search_service in Hm.
  destruct (negb (String.eqb category "all") && _); [done|].
  apply in_app_or in Hm as [Hm|Hm].
  - destruct (truthy query) eqn:Hq.
    + apply truthy_nonempty in Hq.
      repeat match type of Hm with
             | context [if matchesQuery ?t ?q ?s then _ else _] =>
                 destruct (matchesQuery t q s)
             end;
        cbn in Hm; try contradiction; destruct Hm as [<-|[]]; cbn; (split; [lia|]); left;
        repeat split; eauto; right; split; try done; cbn; tauto.
    + assert (query = "") as ->.
      { unfold truthy in Hq. by destruct (String.eqb_spec query ""). }
      cbn in Hm. destruct Hm as [<-|[]]. cbn. split; [lia|]. left. eauto 6.
  - destruct (svc_entityTypes svc) as [ets|]; [|done].
    destruct (truthy query) eqn:Hq; [|done]. apply truthy_nonempty in Hq.
    apply in_flat_map in Hm as (e & _ & Hm).
    unfold entity_matches in Hm. rewrite scan_properties_spec in Hm.
    destruct (matchesQuery (toLowerCase (et_name e)) query searchMode);
      [|destruct (existsb _ _)]; cbn in Hm; try contradiction; destruct Hm as [<-|[]]; cbn;
      (split; [lia|]); right; [left|right]; eauto 6.
Qed.

Lemma X5_match_scores_witness :
  List.Forall (fun m => 50 <= m_score m <= 95)
    (performCategorySearch Sample.catalog "customer" "all" Combined) /\
  length (performCategorySearch Sample.catalog "customer" "all" Combined) = 1%nat.
Proof.
  split; [|reflexivity]. apply List.Forall_forall. intros m Hin.
  apply (X5_match_scores Sample.catalog "customer" "all" Combined m Hin).
Defined.

(** X6: with a category other than all, every match of a scan comes from a
    service of the catalog whose categories hold that category. *)
Theorem X6_scan_stays_in_category (services : list ODataService) (query category : string)
    (searchMode : SearchMode) (m : Match) :
  category <> "all" ->
  In m (performCategorySearch services query category searchMode) ->
  exists svc, In svc services /\
    sr_id (m_service m) = svc_id svc /\ sr_title (m_service m) = svc_title svc /\
    In category (categories_of services svc).
Proof.
  intros Hc. unfold performCategorySearch. rewrite in_flat_map. intros (svc & Hsvc & Hm).
  unfold search_service in Hm.
  apply eqb_all_false in Hc. rewrite Hc in Hm. cbn [negb andb] in Hm.
  destruct (mem category (categories_of services svc)) eqn:Hmem; [|done].
  apply mem_In in Hmem. cbn [negb] in Hm.
  exists svc. split; [done|].
  apply in_app_or in Hm as [Hm|Hm].
  - destruct (_ || _); [|done]. destruct Hm as [<-|[]]. done.
  - destruct (svc_entityTypes svc) as [ets|]; [|done].
    destruct (truthy query); [|done].
    apply in_flat_map in Hm as (e & _ & Hm).
    unfold entity_matches in Hm.
    destruct (scan_properties _ _ _ _) as [sc mp].
    destruct (0 <? sc); [|done]. destruct Hm as [<-|[]]. done.
Qed.

Lemma X6_scan_stays_in_category_witness :
  List.Forall (fun m => sr_id (m_service m) = "API_BP")
    (performCategorySearch Sample.catalog "" "business-partner" Combined) /\
  length (performCategorySearch Sample.catalog "" "business-partner" Combined) = 1%nat.
Proof.
  split; [|reflexivity]. apply List.Forall_forall. intros m Hin.
  destruct (X6_scan_stays_in_category Sample.catalog "" "business-partner" Combined m)
    as (svc & Hsvc & Hid & _); [discriminate|exact Hin|].
  destruct Hsvc as [<-|[]]. exact Hid.
Defined.

(** ** The legacy search and the scan *)

Lemma filter_flat_map {X Y} (f : Y -> bool) (g : X -> list Y) (l : list X) :
  List.filter f (flat_map g l) = flat_map (fun x => List.filter f (g x)) l.
Proof.
  induction l as [|x l IH]; [done|]. cbn [flat_map]. by rewrite List.filter_app, IH.
Qed.

Lemma filter_filter {X} (f g : X -> bool) (l : list X) :
  List.filter f (List.filter g l) = List.filter (fun x => g x && f x) l.
Proof.
  induction l as [|x l IH]; [done|]. cbn [List.filter].
  destruct (g x); cbn [List.filter andb]; [|done]. destruct (f x); by rewrite IH.
Qed.

Lemma entity_matches_not_service query searchMode service entity :
  List.filter is_service_match (entity_matches query searchMode service entity) = [].
Proof.
  unfold entity_matches. destruct (scan_properties _ _ _ _) as [sc mp].
  destruct (0 <? sc); [|done]. unfold is_service_match. cbn.
  by destruct (90 <=? sc).
Qed.

Lemma category_of_truthy args : truthy (category_of args) = true.
Proof.
  unfold category_of. destruct (mem _ validCategories) eqn:Hm; [|done].
  apply mem_In in Hm. simpl in Hm.
  repeat destruct Hm as [<-|Hm]; try done.
Qed.

Lemma matchesQuery_combined_lower x query :
  matchesQuery (toLowerCase x) query Combined = truthy query && includes (toLowerCase x) query.
Proof. unfold matchesQuery. rewrite toLowerCase_idem. by destruct (truthy query). Qed.

Section LegacyFacts.

Variable services : list ODataService.

Lemma entity_part_not_service query searchMode svc :
  List.filter is_service_match
    (match svc_entityTypes svc with
     | Some entityTypes =>
         if truthy query
         then flat_map (entity_matches query searchMode svc) entityTypes
         else []
     | None => []
     end) = [].
Proof.
  destruct (svc_entityTypes svc) as [ets|]; [|done].
  destruct (truthy query); [|done].
  rewrite filter_flat_map. induction ets as [|e ets IH]; [done|].
  cbn [flat_map]. by rewrite entity_matches_not_service.
Qed.

Lemma service_scan_ids query category svc :
  map (fun m => sr_id (m_service m))
      (List.filter is_service_match (search_service services query category Combined svc)) =
  if in_category services category svc && (negb (truthy query) || service_hit query svc)
  then [svc_id svc] else [].
Proof.
  unfold search_service, in_category, service_hit.
  rewrite !matchesQuery_combined_lower.
  destruct (String.eqb category "all"), (mem category (categories_of services svc));
    cbn [negb andb orb]; try done;
    rewrite List.filter_app, entity_part_not_service, app_nil_r;
    destruct (truthy query); cbn [negb andb orb]; try done;
    destruct (includes (toLowerCase (svc_id svc)) query); try done;
    destruct (includes (toLowerCase (svc_title svc)) query); try done;
    by destruct (includes (toLowerCase (svc_description svc)) query).
Qed.

Lemma filter_all {X} (f : X -> bool) (l : list X) :
  (forall x, f x = true) -> List.filter f l = l.
Proof.
  intros Hf. induction l as [|x l IH]; [done|]. cbn [List.filter]. by rewrite Hf, IH.
Qed.

Lemma legacy_filtered_spec args :
  searchServices_filtered services args =
  List.filter (fun svc => in_category services (category_of args) svc &&
                          (negb (truthy (query_of args)) || service_hit (query_of args) svc))
              services.
Proof.
  unfold searchServices_filtered. rewrite category_of_truthy. cbn [andb].
  unfold in_category, service_hit, categories_of.
  destruct (String.eqb (category_of args) "all"), (truthy (query_of args));
    cbn [negb orb andb].
  - by apply List.filter_ext.
  - symmetry. by apply filter_all.
  - rewrite filter_filter. apply List.filter_ext. intros svc.
    by destruct (serviceCategories services !! svc_id svc).
  - apply List.filter_ext. intros svc.
    destruct (serviceCategories services !! svc_id svc); cbn [default];
      by rewrite andb_true_r.
Qed.

End LegacyFacts.

(** X7: the services the legacy search finds for a query and a category
    are, in the same order, the services that get a service match in the
    combined scan of the discovery engine for that query and category. *)
Theorem X7_legacy_search_agrees (services : list ODataService) (args : DiscoverArgs) :
  let scan := performCategorySearch services (query_of args) (category_of args) Combined in
  map svc_id (searchServices_filtered services args) =
    map (fun m => sr_id (m_service m)) (List.filter is_service_match scan) /\
  ls_totalFound (searchServices services args) =
    length (List.filter is_service_match scan).
Proof.
  intros scan.
  assert (Hids : map svc_id (searchServices_filtered services args) =
                 map (fun m => sr_id (m_service m)) (List.filter is_service_match scan)).
  { subst scan. rewrite legacy_filtered_spec. unfold performCategorySearch.
    rewrite filter_flat_map. generalize services at 2 4. intros l.
    induction l as [|svc l IH]; [done|].
    cbn [List.filter flat_map]. rewrite map_app, service_scan_ids, <- IH.
    by destruct (in_category _ _ _ && _). }
  split; [exact Hids|].
  cbn [searchServices ls_totalFound].
  rewrite <- (length_map svc_id), Hids. by rewrite length_map.
Qed.

(** ** Invariants of a discovery result *)

Lemma category_of_valid args : In (category_of args) validCategories.
Proof.
  unfold category_of. destruct (mem _ validCategories) eqn:Hm.
  - by apply mem_In.
  - simpl. tauto.
Qed.

Lemma run_tiers_flags services query category :
  let st := run_tiers services query category in
  (st_category st = category \/ st_category st = "all") /\
  (st_returnedAllServices st = true -> st_usedCategoryFallback st = true) /\
  (st_usedCategoryFallback st = true -> query <> "" /\ st_category st = "all") /\
  (st_usedSeparatedWords st = true <-> st_searchMode st = Separated) /\
  (st_usedSeparatedWords st = true -> includes query " " = true).
Proof.
  intros st. subst st. rewrite <- (truthy_nonempty query).
  unfold run_tiers, level5, level3, level2, level1, is_empty.
  tier_cases; repeat split; intros; try done; try discriminate; auto.
Qed.

Lemma slice0_le {A} (l : list A) n : (length (JsArray.slice0 l n) <= length l)%nat.
Proof. unfold JsArray.slice0. rewrite length_firstn. lia. Qed.

(** X8: in the result of every discovery call the category in force is one
    of the seven valid ones, the resolved one or all; a result flagged as
    all services is flagged as a category fallback; a category fallback only
    happens for a query that is not empty and leaves the category all; the
    flag for separated words is set exactly when the mode in force is the
    separated one, and then the query has a space; and the number of matches
    shown is at most the number found, for every limit. *)
Theorem X8_result_invariants (services : list ODataService) (args : DiscoverArgs) :
  let d := searchServicesAndEntities services args in
  let r := d_result d in
  In (r_actualCategory r) validCategories /\
  (r_actualCategory r = category_of args \/ r_actualCategory r = "all") /\
  (r_returnedAllServices r = true -> r_usedCategoryFallback r = true) /\
  (r_usedCategoryFallback r = true -> query_of args <> "" /\ r_actualCategory r = "all") /\
  (r_usedSeparatedWords r = true <-> r_searchMode r = Separated) /\
  (r_usedSeparatedWords r = true -> includes (query_of args) " " = true) /\
  (r_showing r <= r_totalFound r)%nat /\
  r_showing r = length (d_limitedMatches d) /\
  r_totalProperties r = length (r_mappingTable r).
Proof.
  intros d r.
  destruct (run_tiers_flags services (query_of args) (category_of args))
    as (Hcat & Hall & Hfb & Hsep & Hspace).
  change (r_actualCategory r)
    with (st_category (run_tiers services (query_of args) (category_of args))).
  split.
  { destruct Hcat as [-> | ->]; [apply category_of_valid|simpl; tauto]. }
  repeat split; try done; try apply Hsep; try apply Hfb; try assumption.
  apply slice0_le.
Qed.

Section EmptyQuery.

Variable services : list ODataService.




End EmptyQuery.



(** ** The rows of the mapping table *)

Lemma from_catalog_rows services m row :
  from_catalog services m -> In row (match_rows m) ->
  exists svc e p,
    In svc services /\ In e (default [] (svc_entityTypes svc)) /\ In p (et_properties e) /\
    row = catalog_row svc e p.
Proof.
  intros (svc & Hsvc & Hid & Htitle & Hviews). rewrite match_rows_entities.
  intros Hrow. apply in_flat_map in Hrow as (ev & Hev & Hrow).
  destruct (Hviews ev Hev) as (e & He & ->).
  unfold entity_rows in Hrow. cbn [entity_view ev_properties] in Hrow.
  rewrite map_map in Hrow. apply in_map_iff in Hrow as (p & <- & Hp).
  exists svc, e, p. repeat split; try done.
  unfold catalog_row. cbn. by rewrite Hid, Htitle.
Qed.

(** X10: every row of the mapping table of a discovery call is the row of
    a property of an entity type of a service of the catalog: the ids and
    names, the type, the key flag (the property is among the declared keys),
    the nullable flag and the maximal length are those of the catalog, and
    the capabilities always read R:Y. *)
Theorem X10_rows_from_catalog (services : list ODataService) (args : DiscoverArgs)
    (row : MappingRow) :
  In row (r_mappingTable (d_result (searchServicesAndEntities services args))) ->
  exists svc e p,
    In svc services /\ In e (default [] (svc_entityTypes svc)) /\ In p (et_properties e) /\
    row = catalog_row svc e p.
Proof.
  change (r_mappingTable (d_result (searchServicesAndEntities services args)))
    with (convertToMappingTable (d_limitedMatches (searchServicesAndEntities services args))).
  unfold convertToMappingTable. intros Hrow.
  apply in_flat_map in Hrow as (m & Hm & Hrow).
  apply limited_from_catalog in Hm. by eapply from_catalog_rows.
Qed.

Lemma X10_rows_from_catalog_witness :
  exists p, In p (et_properties Sample.customer) /\
    mkMappingRow "API_BP" "Business Partner" "Customer" (Some "Customers") "Email"
      "Edm.String" false true "N/A" "R:Y C:Y U:Y D:N" =
    catalog_row Sample.api_bp Sample.customer p.
Proof.
  destruct (X10_rows_from_catalog Sample.catalog (mkDiscoverArgs (Some "email") None None)
              (mkMappingRow "API_BP" "Business Partner" "Customer" (Some "Customers") "Email"
                 "Edm.String" false true "N/A" "R:Y C:Y U:Y D:N"))
    as (svc & e & p & Hsvc & He & Hp & Hrow).
  { vm_compute. tauto. }
  destruct Hsvc as [<-|[]]. destruct He as [<-|[]]. eauto.
Defined.

(** ** A query always finds something *)

Lemma run_tiers_nonempty services query category :
  query <> "" -> services <> [] ->
  st_matches (run_tiers services query category) <> [].
Proof.
  intros Hq Hs. apply truthy_nonempty in Hq. revert Hq.
  assert (Hall : performCategorySearch services "" "all" Combined <> []).
  { rewrite search_all_services. by destruct services. }
  revert Hall.
  unfold run_tiers, level5, level3, level2, level1, is_empty.
  tier_cases; intros; try done; try congruence; subst; done.
Qed.

(** X11: for a query that is not empty and a catalog that is not empty a
    discovery call always finds at least one match, and with a limit the
    input schema accepts it shows at least one. *)
Theorem X11_query_never_empty_handed (services : list ODataService) (args : DiscoverArgs) :
  query_of args <> "" -> services <> [] ->
  let d := searchServicesAndEntities services args in
  (1 <= r_totalFound (d_result d))%nat /\
  (limit_schema (arg_limit args) = true -> (1 <= r_showing (d_result d))%nat).
Proof.
  intros Hq Hs d.
  pose proof (run_tiers_nonempty services (query_of args) (category_of args) Hq Hs) as Hne.
  assert (Hfound : (1 <= r_totalFound (d_result d))%nat).
  { change (r_totalFound (d_result d)) with (length (d_sorted d)).
    subst d. rewrite sorted_is_sort, (sort_length m_score).
    destruct (st_matches _); [done|]. simpl. lia. }
  split; [exact Hfound|]. intros Hschema.
  change (r_showing (d_result d)) with (length (d_limitedMatches d)).
  change (r_totalFound (d_result d)) with (length (d_sorted d)) in Hfound.
  subst d. rewrite limited_is_slice, slice0_length.
  - assert (1 <= limit_of args).
    { unfold limit_of, limit_schema in *. destruct (arg_limit args) as [n|]; [|lia].
      apply andb_prop in Hschema as [H1 _]. apply Z.leb_le in H1.
      destruct (Z.eqb_spec n 0); lia. }
    lia.
  - unfold limit_of, limit_schema in *. destruct (arg_limit args) as [n|]; [|lia].
    apply andb_prop in Hschema as [H1 _]. apply Z.leb_le in H1.
    destruct (Z.eqb_spec n 0); lia.
Qed.

Lemma X11_query_never_empty_handed_witness :
  (1 <= r_totalFound (d_result (searchServicesAndEntities [Sample.api_bare]
                                  (mkDiscoverArgs (Some "zzz") (Some "sales") None))))%nat.
Proof.
  destruct (X11_query_never_empty_handed [Sample.api_bare]
              (mkDiscoverArgs (Some "zzz") (Some "sales") None)) as [Hfound _].
  - vm_compute. discriminate.
  - discriminate.
  - exact Hfound.
Defined.

(** ** The calls of an execute call *)

Lemma dispatch_shape sapClient op name svc e params qo tr0 :
  (exists msg, dispatch sapClient op name svc e params qo tr0 = (tr0, Throw msg)) \/
  (exists c, is_network_call c = true /\
     match sapClient c with
     | Throw msg => dispatch sapClient op name svc e params qo tr0 = (tr0 ++ [c], Throw msg)
     | Ok _ =>
         exists d r, dispatch sapClient op name svc e params qo tr0 = (tr0 ++ [c], Ok (d, r))
     end).
Proof.
  unfold dispatch, bind, lift, client, ret, throw.
  repeat match goal with
         | |- context [String.eqb op ?s] => destruct (String.eqb_spec op s)
         | |- context [negb ?b] => destruct b eqn:?; cbn [negb]
         | |- context [buildKeyValue e params] => destruct (buildKeyValue e params)
         end;
    try (left; eexists; reflexivity);
    right;
    match goal with
    | |- context [sapClient ?c] => exists c; split; [reflexivity|]; destruct (sapClient c); eauto
    end.
Qed.

Section ExecuteShape.

Variable services : list ODataService.
Variable userToken : option string.
Variable sapClient : ClientCall -> Thrown string.

Let execute := executeEntityOperation services userToken sapClient.

(** An execute call either ends before any call on the client, with an
    error response, or it finds its service and entity type and runs the
    switch after [setUserToken]. *)
Lemma execute_cases args :
  (fst (execute args) = [] /\ exists text, snd (execute args) = IsError text) \/
  (exists service entityType,
     mem (toLowerCase (a_operation args)) validOperations = true /\
     List.find (fun s => String.eqb (svc_id s) (a_serviceId args)) services = Some service /\
     List.find (fun e => String.eqb (et_name e) (a_entityName args))
               (default [] (svc_entityTypes service)) = Some entityType /\
     execute args =
       match dispatch sapClient (toLowerCase (a_operation args)) (a_entityName args)
               service entityType (default ∅ (a_parameters args))
               (build_queryOptions args) [SetUserToken (session_token userToken args)] with
       | (tr, Ok (operationDescription, data)) => (tr, Success operationDescription data)
       | (tr, Throw message) => (tr, failed args message)
       end).
Proof.
  destruct (mem (toLowerCase (a_operation args)) validOperations) eqn:Hop.
  2: { left. unfold execute, executeEntityOperation. rewrite Hop. cbn. unfold failed. eauto. }
  destruct (List.find (fun s => String.eqb (svc_id s) (a_serviceId args)) services)
    as [service|] eqn:Hsvc.
  2: { left. unfold execute, executeEntityOperation. rewrite Hop, Hsvc. cbn. eauto. }
  destruct (List.find (fun e => String.eqb (et_name e) (a_entityName args))
                      (default [] (svc_entityTypes service))) as [entityType|] eqn:Hent.
  2: { left. unfold execute, executeEntityOperation. rewrite Hop, Hsvc, Hent. cbn. eauto. }
  right. exists service, entityType. repeat split; try done.
  by apply execute_found.
Qed.

End ExecuteShape.

(** X12: the calls an execute call makes on the client are none, or
    [setUserToken] alone, or [setUserToken] followed by exactly one call
    that reaches the remote service; when there is none the response is an
    error. *)
Theorem X12_execute_trace_shape (services : list ODataService) (userToken : option string)
    (sapClient : ClientCall -> Thrown string) (args : ExecuteArgs) :
  let run := executeEntityOperation services userToken sapClient args in
  let token := SetUserToken (session_token userToken args) in
  (fst run = [] /\ exists text, snd run = IsError text) \/
  (fst run = [token] /\ exists text, snd run = IsError text) \/
  (exists c, is_network_call c = true /\ fst run = [token; c]).
Proof.
  intros run token.
  destruct (execute_cases services userToken sapClient args)
    as [Hnone|(service & entityType & _ & _ & _ & Hrun)]; [by left|].
  right. subst run. rewrite Hrun.
  destruct (dispatch_shape sapClient (toLowerCase (a_operation args)) (a_entityName args)
              service entityType (default ∅ (a_parameters args)) (build_queryOptions args)
              [SetUserToken (session_token userToken args)])
    as [(msg & ->)|(c & Hc & Hcall)].
  - left. cbn. unfold failed. eauto.
  - right. exists c. split; [done|].
    destruct (sapClient c); [destruct Hcall as (d & r & ->)|rewrite Hcall]; done.
Qed.

(** X13: when the call that reaches the remote service throws, the response
    is the error that carries the thrown message as it is; when it returns,
    the response is a success. *)
Theorem X13_upstream_outcome (services : list ODataService) (userToken : option string)
    (sapClient : ClientCall -> Thrown string) (args : ExecuteArgs) (c : ClientCall) :
  let run := executeEntityOperation services userToken sapClient args in
  In c (fst run) -> is_network_call c = true ->
  match sapClient c with
  | Throw message =>
      snd run = IsError ("ERROR: Failed to execute " +:+ a_operation args +:+
                         " operation on " +:+ a_entityName args +:+ ": " +:+ message)
  | Ok _ => exists operationDescription data, snd run = Success operationDescription data
  end.
Proof.
  intros run Hin Hnet.
  destruct (execute_cases services userToken sapClient args)
    as [[Hnone _]|(service & entityType & _ & _ & _ & Hrun)].
  { subst run. rewrite Hnone in Hin. destruct Hin. }
  subst run. rewrite Hrun in *.
  destruct (dispatch_shape sapClient (toLowerCase (a_operation args)) (a_entityName args)
              service entityType (default ∅ (a_parameters args)) (build_queryOptions args)
              [SetUserToken (session_token userToken args)])
    as [(msg & Hd)|(c' & Hc' & Hcall)].
  - rewrite Hd in Hin. cbn in Hin. destruct Hin as [<-|[]]. discriminate.
  - assert (c = c') as <-.
    { destruct (sapClient c'); [destruct Hcall as (d & r & Hd)|rename Hcall into Hd];
        rewrite Hd in Hin; cbn in Hin; destruct Hin as [<-|[<-|[]]]; done. }
    destruct (sapClient c); [destruct Hcall as (d & r & ->)|rewrite Hcall]; cbn; eauto.
Qed.

Lemma X13_upstream_outcome_witness :
  snd (executeEntityOperation Sample.catalog None (fun _ => Throw "503 Service Unavailable")
         (mkExecuteArgs "API_BP" "Customer" "read" None None None None None None None None None)) =
  IsError "ERROR: Failed to execute read operation on Customer: 503 Service Unavailable".
Proof.
  apply (X13_upstream_outcome Sample.catalog None (fun _ => Throw "503 Service Unavailable")
           (mkExecuteArgs "API_BP" "Customer" "read" None None None None None None None None None)
           (ReadEntitySet "/sap/opu/odata/sap/API_BP" (Some "Customers") ∅ false)).
  - vm_compute. tauto.
  - reflexivity.
Defined.

(** ** From a row of the mapping table to an execute call *)

Lemma find_distinct_id (services : list ODataService) svc :
  List.NoDup (map svc_id services) -> In svc services ->
  List.find (fun s => String.eqb (svc_id s) (svc_id svc)) services = Some svc.
Proof.
  induction services as [|x l IH]; [done|]. cbn [map List.find]. intros Hnd Hin.
  apply List.NoDup_cons_iff in Hnd as [Hx Hl].
  destruct (String.eqb_spec (svc_id x) (svc_id svc)) as [Heq|Hne].
  - destruct Hin as [->|Hin]; [done|]. exfalso. apply Hx. rewrite Heq. by apply in_map.
  - destruct Hin as [->|Hin]; [done|]. by apply IH.
Qed.

Lemma find_name_exists (ets : list EntityType) e :
  In e ets ->
  exists e', List.find (fun x => String.eqb (et_name x) (et_name e)) ets = Some e' /\
    In e' ets /\ et_name e' = et_name e.
Proof.
  induction ets as [|x l IH]; [done|]. cbn [List.find]. intros Hin.
  destruct (String.eqb_spec (et_name x) (et_name e)) as [Heq|Hne].
  - exists x. repeat split; try done. by left.
  - destruct Hin as [->|Hin]; [done|].
    destruct (IH Hin) as (e' & Hfind & Hin' & Hname). exists e'. repeat split; try done. by right.
Qed.

(** X14: when the ids of the services of the catalog are distinct, the
    service id and the entity name of every row of a mapping table are found
    by an execute call: for any of the five operations the call passes the
    lookup of the service and of the entity type, which are the ones the row
    names, and goes on to [setUserToken]. *)
Theorem X14_rows_resolve_in_execute (services : list ODataService) (found : DiscoverArgs)
    (row : MappingRow) (userToken : option string) (sapClient : ClientCall -> Thrown string)
    (args : ExecuteArgs) :
  List.NoDup (map svc_id services) ->
  In row (r_mappingTable (d_result (searchServicesAndEntities services found))) ->
  a_serviceId args = row_serviceId row ->
  a_entityName args = row_entityName row ->
  In (toLowerCase (a_operation args)) validOperations ->
  exists service entityType rest,
    In service services /\ svc_id service = row_serviceId row /\
    In entityType (default [] (svc_entityTypes service)) /\
    et_name entityType = row_entityName row /\
    fst (executeEntityOperation services userToken sapClient args) =
      SetUserToken (session_token userToken args) :: rest.
Proof.
  intros Hnd Hrow Hid Hname Hop.
  assert (Hcat : exists svc e p,
             In svc services /\ In e (default [] (svc_entityTypes svc)) /\
             In p (et_properties e) /\ row = catalog_row svc e p).
  { change (r_mappingTable (d_result (searchServicesAndEntities services found)))
      with (convertToMappingTable (d_limitedMatches (searchServicesAndEntities services found)))
      in Hrow.
    unfold convertToMappingTable in Hrow. apply in_flat_map in Hrow as (m & Hm & Hrow).
    apply limited_from_catalog in Hm. by eapply from_catalog_rows. }
  destruct Hcat as (svc & e & p & Hsvc & He & _ & ->).
  cbn [catalog_row row_serviceId row_entityName] in *.
  destruct (find_name_exists _ e He) as (e' & Hfind & He' & Hname').
  pose proof (find_distinct_id services svc Hnd Hsvc) as Hfsvc.
  rewrite <- Hid in Hfsvc. rewrite <- Hname in Hfind.
  apply mem_In in Hop.
  pose proof (execute_found services userToken sapClient args svc e' Hop Hfsvc Hfind) as Hrun.
  destruct (dispatch_shape sapClient (toLowerCase (a_operation args)) (a_entityName args)
              svc e' (default ∅ (a_parameters args)) (build_queryOptions args)
              [SetUserToken (session_token userToken args)])
    as [(msg & Hd)|(c & _ & Hcall)].
  - exists svc, e', []. repeat split; try done. by rewrite Hrun, Hd.
  - exists svc, e', [c]. repeat split; try done. rewrite Hrun.
    destruct (sapClient c); [destruct Hcall as (d & r & ->)|rewrite Hcall]; done.
Qed.

Lemma X14_rows_resolve_in_execute_witness :
  exists rest,
    fst (executeEntityOperation Sample.catalog None (fun _ => Ok "[]")
           (mkExecuteArgs "API_BP" "Customer" "read" None None None None None None None None None)) =
    SetUserToken None :: rest.
Proof.
  destruct (X14_rows_resolve_in_execute Sample.catalog (mkDiscoverArgs (Some "email") None None)
              (mkMappingRow "API_BP" "Business Partner" "Customer" (Some "Customers") "Email"
                 "Edm.String" false true "N/A" "R:Y C:Y U:Y D:N")
              None (fun _ => Ok "[]")
              (mkExecuteArgs "API_BP" "Customer" "read" None None None None None None None None None))
    as (service & entityType & rest & _ & _ & _ & _ & Hrun).
  - simpl. repeat constructor. simpl. tauto.
  - vm_compute. tauto.
  - reflexivity.
  - reflexivity.
  - simpl. tauto.
  - exists rest. exact Hrun.
Defined.

(** ** Query options *)

Lemma lookup_set_string k0 v (m : gmap string Value) k :
  set_string k0 v m !! k =
  if String.eqb k k0 then match string_option v with Some x => Some x | None => m !! k end
  else m !! k.
Proof.
  unfold set_string, string_option.
  destruct (String.eqb_spec k k0) as [->|Hne]; destruct v as [s|]; try done;
    destruct (truthy s); try done.
  - apply lookup_insert_eq.
  - apply lookup_insert_ne. congruence.
Qed.

Lemma lookup_set_number k0 v (m : gmap string Value) k :
  set_number k0 v m !! k =
  if String.eqb k k0 then match number_option v with Some x => Some x | None => m !! k end
  else m !! k.
Proof.
  unfold set_number, number_option.
  destruct (String.eqb_spec k k0) as [->|Hne]; destruct v as [n|]; try done;
    destruct (int_value n =? 0); try done.
  - apply lookup_insert_eq.
  - apply lookup_insert_ne. congruence.
Qed.

(** X15: in the query options of an execute call an entry of the legacy
    object wins over the discrete field of the same name; where the legacy
    object has no entry, each of the six names holds the value of its field
    when that is a string that is not empty or a number that is not 0, and
    no other name is set. *)
Theorem X15_query_options (args : ExecuteArgs) (k : string) :
  let legacy_value := match a_queryOptions args with Some legacy => legacy !! k | None => None end in
  build_queryOptions args !! k =
  match legacy_value with
  | Some v => Some v
  | None => discrete_option args k
  end.
Proof.
  intros legacy_value. subst legacy_value. unfold build_queryOptions.
  assert (Hd : set_number "$skip" (a_skipNumber args)
                 (set_number "$top" (a_topNumber args)
                    (set_string "$orderby" (a_orderbyString args)
                       (set_string "$expand" (a_expandString args)
                          (set_string "$select" (a_selectString args)
                             (set_string "$filter" (a_filterString args) ∅))))) !! k =
               discrete_option args k).
  { rewrite !lookup_set_number, !lookup_set_string, lookup_empty. unfold discrete_option.
    repeat match goal with
           | |- context [String.eqb k ?s] => destruct (String.eqb_spec k s) as [->|?]
           end;
      cbn;
      repeat match goal with
             | |- context [string_option ?v] => destruct (string_option v)
             | |- context [number_option ?v] => destruct (number_option v)
             end; done. }
  destruct (a_queryOptions args) as [legacy|]; [|exact Hd].
  rewrite lookup_union, Hd.
  destruct (legacy !! k), (discrete_option args k); done.
Qed.

(** ** Keys at dispatch *)

(** X16: for read-single, update and delete on an entity type that is
    found, a key that cannot be built (a key property is missing from the
    parameters) ends the call in an error and no call reaches the remote
    service. *)
Theorem X16_no_key_no_call (services : list ODataService) (userToken : option string)
    (sapClient : ClientCall -> Thrown string) (args : ExecuteArgs)
    (service : ODataService) (entityType : EntityType) (message : string) :
  List.find (fun s => String.eqb (svc_id s) (a_serviceId args)) services = Some service ->
  List.find (fun e => String.eqb (et_name e) (a_entityName args))
            (default [] (svc_entityTypes service)) = Some entityType ->
  In (toLowerCase (a_operation args)) ["read-single"; "update"; "delete"] ->
  buildKeyValue entityType (default ∅ (a_parameters args)) = Throw message ->
  let run := executeEntityOperation services userToken sapClient args in
  List.filter is_network_call (fst run) = [] /\
  exists text, snd run = IsError text.
Proof.
  intros Hsvc Hent Hop Hkey run. subst run.
  rewrite (execute_found services userToken sapClient args service entityType);
    [|apply mem_In; simpl in Hop |- *; tauto|done|done].
  simpl in Hop. unfold dispatch, bind, lift, throw.
  destruct Hop as [<-|[<-|[<-|[]]]]; cbn [String.eqb Ascii.eqb Bool.eqb];
    rewrite ?Hkey;
    try destruct (et_updatable entityType); try destruct (et_deletable entityType);
    cbn; unfold failed; eauto.
Qed.

Lemma X16_no_key_no_call_witness :
  let run := executeEntityOperation Sample.catalog None (fun _ => Ok "{}")
               (mkExecuteArgs "API_BP" "Customer" "read-single" (Some {[ "Name" := VStr "x" ]})
                  None None None None None None None None) in
  List.filter is_network_call (fst run) = [] /\
  snd run = IsError "ERROR: Failed to execute read-single operation on Customer: Missing required key property: ID. Required keys: ID".
Proof.
  intros run.
  destruct (X16_no_key_no_call Sample.catalog None (fun _ => Ok "{}")
              (mkExecuteArgs "API_BP" "Customer" "read-single" (Some {[ "Name" := VStr "x" ]})
                 None None None None None None None None)
              Sample.api_bp Sample.customer "Missing required key property: ID. Required keys: ID")
    as [Hnone _]; try reflexivity.
  - simpl. tauto.
  - split; [exact Hnone|]. vm_compute. reflexivity.
Defined.

(** X17: when no property of an entity type is named by its declared keys,
    [buildKeyValue] reports no missing key whatever the parameters are: it
    gives the empty string, and a read-single then reads the entity with the
    empty key. *)
Theorem X17_keys_outside_properties (services : list ODataService) (userToken : option string)
    (sapClient : ClientCall -> Thrown string) (args : ExecuteArgs)
    (service : ODataService) (entityType : EntityType) :
  (forall p, In p (et_properties entityType) -> ~ In (prop_name p) (et_keys entityType)) ->
  (forall parameters, buildKeyValue entityType parameters = Ok "") /\
  (List.find (fun s => String.eqb (svc_id s) (a_serviceId args)) services = Some service ->
   List.find (fun e => String.eqb (et_name e) (a_entityName args))
             (default [] (svc_entityTypes service)) = Some entityType ->
   toLowerCase (a_operation args) = "read-single" ->
   fst (executeEntityOperation services userToken sapClient args) =
     [SetUserToken (session_token userToken args);
      ReadEntity (svc_url service) (et_entitySet entityType) "" false]).
Proof.
  intros Hout.
  assert (Hnokey : key_properties entityType = []).
  { unfold key_properties. induction (et_properties entityType) as [|p ps IH]; [done|].
    cbn [List.filter]. destruct (mem (prop_name p) (et_keys entityType)) eqn:Hm.
    - apply mem_In in Hm. destruct (Hout p); [by left|done].
    - apply IH. intros q Hq. apply Hout. by right. }
  assert (Hkey : forall parameters, buildKeyValue entityType parameters = Ok "").
  { intros parameters. unfold buildKeyValue. by rewrite Hnokey. }
  split; [exact Hkey|].
  intros Hsvc Hent Hop.
  rewrite (execute_found services userToken sapClient args service entityType);
    [|by rewrite Hop|done|done].
  rewrite Hop. unfold dispatch, bind, lift, client, ret.
  cbn [String.eqb Ascii.eqb Bool.eqb]. rewrite Hkey.
  by destruct (sapClient _).
Qed.

Lemma X17_keys_outside_properties_witness :
  let orphan := mkEntityType "Log" (Some "Logs") ["Id"]
                  [mkProperty "Text" "Edm.String" true None] false false false in
  buildKeyValue orphan ∅ = Ok "".
Proof.
  intros orphan.
  apply (X17_keys_outside_properties [] None (fun _ => Ok "{}")
           (mkExecuteArgs "S" "Log" "read-single" None None None None None None None None None)
           Sample.api_bare orphan).
  simpl. intros p [<-|[]]. simpl. intuition discriminate.
Defined.

(** ** The lookup of the service *)

Lemma find_first {X} (f : X -> bool) (before : list X) x after :
  f x = true -> (forall y, In y before -> f y = false) ->
  List.find f (before ++ x :: after) = Some x.
Proof.
  intros Hx Hbefore. induction before as [|y before IH]; cbn [app List.find].
  - by rewrite Hx.
  - rewrite (Hbefore y) by (by left). apply IH. intros z Hz. apply Hbefore. by right.
Qed.

Lemma find_none_all {X} (f : X -> bool) (l : list X) :
  (forall y, In y l -> f y = false) -> List.find f l = None.
Proof.
  intros Hall. destruct (List.find f l) as [x|] eqn:Hf; [|done].
  apply List.find_some in Hf as [Hin Hx]. rewrite (Hall x Hin) in Hx. discriminate.
Qed.

(** X18: a title is never taken for an id. For a call with a valid
    operation name, when no service has the given id, the call makes no
    call on the client and answers with the error that the service is not
    found; when services have that text as their title, in any casing, the
    error names the id of the first of them in the catalog as the one to
    use; when none has, it points to the discovery tool. *)
Theorem X18_title_is_not_an_id (services : list ODataService) (userToken : option string)
    (sapClient : ClientCall -> Thrown string) (args : ExecuteArgs) :
  In (toLowerCase (a_operation args)) validOperations ->
  (forall s, In s services -> svc_id s <> a_serviceId args) ->
  let run := executeEntityOperation services userToken sapClient args in
  let same_title s := toLowerCase (svc_title s) = toLowerCase (a_serviceId args) in
  fst run = [] /\
  (forall before first after,
     services = before ++ first :: after ->
     same_title first -> (forall s, In s before -> ~ same_title s) ->
     snd run =
       IsError ("ERROR: Service not found: " +:+ a_serviceId args +:+ newline +:+ newline +:+
                "WARNING: It looks like you used the 'title' field instead of the 'id' field!" +:+
                newline +:+
                "CORRECTION: Use this serviceId instead: " +:+ svc_id first +:+
                newline +:+ newline +:+
                "Remember: Always use the 'id' field from discover-sap-data results, NOT the 'title' field.")) /\
  ((forall s, In s services -> ~ same_title s) ->
   snd run =
     IsError ("ERROR: Service not found: " +:+ a_serviceId args +:+ newline +:+ newline +:+
              "SUGGESTION: Use 'discover-sap-data' to find available services." +:+ newline +:+
              "REMINDER: Make sure you're using the 'id' field from search results, NOT the 'title' field.")).
Proof.
  intros Hop Hnone run same_title. apply mem_In in Hop.
  assert (Hfind : List.find (fun s => String.eqb (svc_id s) (a_serviceId args)) services = None).
  { apply find_none_all. intros s Hs. apply String.eqb_neq. by apply Hnone. }
  subst run same_title. unfold executeEntityOperation. rewrite Hop, Hfind. cbn [negb fst snd].
  split; [done|]. split.
  - intros before first after -> Hfirst Hbefore.
    rewrite (find_first _ before first after).
    + reflexivity.
    + by apply String.eqb_eq.
    + intros s Hs. apply String.eqb_neq. by apply Hbefore.
  - intros Hno. rewrite find_none_all; [reflexivity|].
    intros s Hs. apply String.eqb_neq. by apply Hno.
Qed.

Lemma X18_title_is_not_an_id_witness :
  let partners := mkService "API_PARTNER_V2" "BUSINESS PARTNER" "" "/sap/opu/odata/sap/V2" None in
  let run := executeEntityOperation [Sample.api_bare; Sample.api_bp; partners] None
               (fun _ => Ok "[]")
               (mkExecuteArgs "business partner" "Customer" "read" None
                  None None None None None None None None) in
  fst run = [] /\
  exists text, snd run = IsError text /\
    includes text "CORRECTION: Use this serviceId instead: API_BP" = true /\
    includes text "API_PARTNER_V2" = false.
Proof.
  intros partners run.
  destruct (X18_title_is_not_an_id [Sample.api_bare; Sample.api_bp; partners] None
              (fun _ => Ok "[]")
              (mkExecuteArgs "business partner" "Customer" "read" None
                 None None None None None None None None))
    as (Hnone & Htitle & _).
  - simpl. tauto.
  - simpl. intros s [<-|[<-|[<-|[]]]]; discriminate.
  - split; [exact Hnone|]. eexists. split.
    + apply (Htitle [Sample.api_bare] Sample.api_bp [partners]).
      * reflexivity.
      * reflexivity.
      * intros s [<-|[]]. discriminate.
    + split; vm_compute; reflexivity.
Defined.

(** ** Resolution of a destination *)

Lemma find_name_none (ds : list EnvDestination) name :
  (forall d, In d ds -> ed_name d <> name) ->
  List.find (fun d => String.eqb (ed_name d) name) ds = None.
Proof.
  intros Hnone. destruct (List.find _ ds) as [d|] eqn:Hf; [|done].
  apply List.find_some in Hf as [Hin Heq]. apply String.eqb_eq in Heq. by destruct (Hnone d).
Qed.

(** X19: when the list of endpoints of the environment has entries with
    the name asked for, the resolution gives the first of them, with basic
    authentication, whatever else the list holds before or after it; no
    lookup is made and neither a token passed in nor the one of the
    environment plays a part. *)
Theorem X19_environment_entry_by_name (env : ProcessEnv)
    (parse_destinations : string -> Thrown (list EnvDestination))
    (sdk_getDestination : string -> option string -> Thrown (option HttpDestination))
    (destinationName raw : string) (before after : list EnvDestination)
    (first : EnvDestination) (jwtToken : option string) :
  or_else (env_destinations env) (env_DESTINATIONS env) = Some raw ->
  parse_destinations raw = Ok (before ++ first :: after) ->
  ed_name first = destinationName ->
  (forall d, In d before -> ed_name d <> destinationName) ->
  getDestination env parse_destinations sdk_getDestination destinationName jwtToken =
    ([DebugFetching destinationName (match jwtToken with Some t => truthy t | None => false end)],
     Ok (mkHttpDestination (ed_url first) (Some (ed_username first))
           (Some (ed_password first)) (Some "BasicAuthentication"))).
Proof.
  intros Henv Hparse Hname Hbefore.
  unfold getDestination, from_environment. rewrite Henv, Hparse.
  rewrite (find_first _ before first after).
  - reflexivity.
  - by apply String.eqb_eq.
  - intros d Hd. apply String.eqb_neq. by apply Hbefore.
Qed.

(** X20: when the list of endpoints of the environment has exactly one
    entry, that entry is used for any name asked for, also for one that is
    not its own; no lookup is made. *)
Theorem X20_single_environment_entry (env : ProcessEnv)
    (parse_destinations : string -> Thrown (list EnvDestination))
    (sdk_getDestination : string -> option string -> Thrown (option HttpDestination))
    (destinationName raw : string) (single : EnvDestination) (jwtToken : option string) :
  or_else (env_destinations env) (env_DESTINATIONS env) = Some raw ->
  parse_destinations raw = Ok [single] ->
  getDestination env parse_destinations sdk_getDestination destinationName jwtToken =
    ([DebugFetching destinationName (match jwtToken with Some t => truthy t | None => false end)],
     Ok (mkHttpDestination (ed_url single) (Some (ed_username single))
           (Some (ed_password single)) (Some "BasicAuthentication"))).
Proof.
  intros Henv Hparse. unfold getDestination, from_environment.
  rewrite Henv, Hparse. cbn [List.find]. by destruct (String.eqb _ _).
Qed.

(** X21: when the environment lists no endpoint that applies (the variable
    is not set, or its text does not parse, or no entry has the name and the
    entries are not exactly one), the resolution makes exactly one lookup,
    with the token passed in or else the one of the environment; it gives
    the destination found, fails with the error that names the destination
    when none is found, and passes on the message when the lookup throws. *)
Theorem X21_lookup_when_environment_silent (env : ProcessEnv)
    (parse_destinations : string -> Thrown (list EnvDestination))
    (sdk_getDestination : string -> option string -> Thrown (option HttpDestination))
    (destinationName : string) (jwtToken : option string) :
  (or_else (env_destinations env) (env_DESTINATIONS env) = None \/
   exists raw, or_else (env_destinations env) (env_DESTINATIONS env) = Some raw /\
     ((exists message, parse_destinations raw = Throw message) \/
      (exists destinations, parse_destinations raw = Ok destinations /\
         (forall d, In d destinations -> ed_name d <> destinationName) /\
         length destinations <> 1%nat))) ->
  let jwt := or_else jwtToken (or_else (env_USER_JWT env) None) in
  let run := getDestination env parse_destinations sdk_getDestination destinationName jwtToken in
  List.filter is_lookup (fst run) = [SdkGetDestination destinationName jwt] /\
  match sdk_getDestination destinationName jwt with
  | Ok (Some destination) => snd run = Ok destination
  | Ok None =>
      snd run = Throw ("Destination '" +:+ destinationName +:+
                       "' not found in environment variables or BTP destination service")
  | Throw message => snd run = Throw message
  end.
Proof.
  intros Hsilent jwt run.
  assert (Hnone : from_environment env parse_destinations destinationName = None).
  { unfold from_environment.
    destruct Hsilent as [->|(raw & -> & [(message & ->)|(ds & -> & Hname & Hlen)])]; try done.
    rewrite find_name_none by done. by destruct ds as [|x [|y l]]. }
  subst run jwt. unfold getDestination. rewrite Hnone. cbn [fst snd List.filter is_lookup].
  unfold getJWT. split; [done|].
  by destruct (sdk_getDestination _ _) as [[dest|]|msg].
Qed.

Lemma X21_lookup_when_environment_silent_witness :
  snd (getDestination Landscape.env_without_jwt Landscape.no_parse
         (fun _ _ => Ok None) "SAP_SYSTEM" None) =
  Throw "Destination 'SAP_SYSTEM' not found in environment variables or BTP destination service".
Proof.
  destruct (X21_lookup_when_environment_silent Landscape.env_without_jwt Landscape.no_parse
              (fun _ _ => Ok None) "SAP_SYSTEM" None) as [_ Hrun].
  - left. reflexivity.
  - exact Hrun.
Defined.

Lemma X19_environment_entry_by_name_witness :
  let dev := mkEnvDestination "DEV" "http://dev" "u" "p" in
  let prod := mkEnvDestination "SAP_SYSTEM" "http://prod" "u" "p" in
  let standby := mkEnvDestination "SAP_SYSTEM" "http://standby" "u2" "p2" in
  getDestination (mkProcessEnv (Some "[...]") None (Some "jwt"))
    (fun _ => Ok [dev; prod; standby]) Landscape.sdk "SAP_SYSTEM" (Some "user-token") =
  ([DebugFetching "SAP_SYSTEM" true],
   Ok (mkHttpDestination "http://prod" (Some "u") (Some "p") (Some "BasicAuthentication"))).
Proof.
  intros dev prod standby.
  apply (X19_environment_entry_by_name (mkProcessEnv (Some "[...]") None (Some "jwt"))
           (fun _ => Ok [dev; prod; standby]) Landscape.sdk "SAP_SYSTEM" "[...]"
           [dev] [standby] prod (Some "user-token")).
  - reflexivity.
  - reflexivity.
  - reflexivity.
  - intros d [<-|[]]. discriminate.
Defined.

Lemma X20_single_environment_entry_witness :
  snd (getDestination (mkProcessEnv None (Some "[...]") None)
         (fun _ => Ok [mkEnvDestination "DEV" "http://dev" "u" "p"])
         Landscape.sdk "SAP_SYSTEM" None) =
  Ok (mkHttpDestination "http://dev" (Some "u") (Some "p") (Some "BasicAuthentication")).
Proof.
  rewrite (X20_single_environment_entry (mkProcessEnv None (Some "[...]") None)
             (fun _ => Ok [mkEnvDestination "DEV" "http://dev" "u" "p"])
             Landscape.sdk "SAP_SYSTEM" "[...]" (mkEnvDestination "DEV" "http://dev" "u" "p") None);
    reflexivity.
Defined.

(** X22: an execution resolution with a token that is not empty makes its
    lookups with that token, whatever [USER_JWT] holds; without a token, or
    with an empty one, it makes them with [USER_JWT], as the discovery
    resolution does. *)
Theorem X22_execution_token_precedence (config_get : string -> string -> string)
    (env : ProcessEnv) (parse_destinations : string -> Thrown (list EnvDestination))
    (sdk_getDestination : string -> option string -> Thrown (option HttpDestination))
    (jwtToken : option string) (destinationName : string) (jwt : option string) :
  In (SdkGetDestination destinationName jwt)
     (fst (getExecutionDestination config_get env parse_destinations sdk_getDestination
             jwtToken)) ->
  destinationName = executionDestinationName config_get /\
  match jwtToken with
  | Some t => if truthy t then jwt = Some t else jwt = getJWT env
  | None => jwt = getJWT env
  end.
Proof.
  unfold getExecutionDestination, getDestination.
  destruct (from_environment _ _ _); cbn [fst In].
  - intros [H|[]]. discriminate.
  - intros [H|[H|[]]]; [discriminate|]. injection H as <- <-.
    split; [done|]. destruct jwtToken as [t|]; [|done]. cbn [or_else]. by destruct (truthy t).
Qed.

Lemma X22_execution_token_precedence_witness :
  fst (getExecutionDestination Landscape.no_config Landscape.env_with_jwt Landscape.no_parse
         Landscape.sdk (Some "caller.jwt")) =
  [DebugFetching "SAP_SYSTEM" true; SdkGetDestination "SAP_SYSTEM" (Some "caller.jwt")].
Proof.
  assert (Hrun : fst (getExecutionDestination Landscape.no_config Landscape.env_with_jwt
                        Landscape.no_parse Landscape.sdk (Some "caller.jwt")) =
                 [DebugFetching "SAP_SYSTEM" true;
                  SdkGetDestination "SAP_SYSTEM" (Some "caller.jwt")]) by reflexivity.
  destruct (X22_execution_token_precedence Landscape.no_config Landscape.env_with_jwt
              Landscape.no_parse Landscape.sdk (Some "caller.jwt") "SAP_SYSTEM"
              (Some "caller.jwt")) as [_ _].
  - rewrite Hrun. simpl. tauto.
  - exact Hrun.
Defined.

(** ** The grouping of the rows *)

Section UpsertFacts.

Context {V : Type}.

Lemma upsert_keys_in k (f : option V -> V) (m : list (string * V)) k' :
  In k' (map fst (upsert k f m)) <-> k' = k \/ In k' (map fst m).
Proof.
  induction m as [|[k0 v] m IH]; cbn [upsert map fst In].
  - split; [intros [<-|[]]; by left|intros [->|[]]; by left].
  - destruct (String.eqb_spec k0 k) as [->|Hne]; cbn [map fst In].
    + split; [tauto|]. intros [->|H]; tauto.
    + rewrite IH. tauto.
Qed.

Lemma upsert_NoDup k (f : option V -> V) (m : list (string * V)) :
  List.NoDup (map fst m) -> List.NoDup (map fst (upsert k f m)).
Proof.
  induction m as [|[k0 v] m IH]; cbn [upsert map fst].
  - intros _. repeat constructor. simpl. tauto.
  - intros Hnd. apply List.NoDup_cons_iff in Hnd as [Hk0 Hm].
    destruct (String.eqb_spec k0 k) as [->|Hne]; cbn [map fst].
    + by apply List.NoDup_cons_iff.
    + apply List.NoDup_cons_iff. split; [|by apply IH].
      rewrite upsert_keys_in. intros [->|H]; done.
Qed.

Lemma upsert_In k (f : option V -> V) (m : list (string * V)) k' v' :
  In (k', v') (upsert k f m) ->
  (k' <> k /\ In (k', v') m) \/
  (k' = k /\ ((v' = f None /\ ~ In k (map fst m)) \/ exists v, In (k, v) m /\ v' = f (Some v))) \/
  (k' = k /\ In (k', v') m).
Proof.
  induction m as [|[k0 v] m IH]; cbn [upsert In map fst].
  - intros [[= <- <-]|[]]. right. left. split; [done|]. left. tauto.
  - destruct (String.eqb_spec k0 k) as [->|Hne]; cbn [In].
    + intros [[= <- <-]|Hin].
      * right. left. split; [done|]. right. exists v. split; [by left|done].
      * destruct (String.eqb_spec k' k) as [->|Hne'].
        -- right. right. split; [done|]. by right.
        -- left. split; [done|]. by right.
    + intros [[= <- <-]|Hin].
      * left. split; [done|]. by left.
      * destruct (IH Hin) as [[Hk Hm]|[[Hk [[Hv Hnot]|(v0 & Hv0 & Hv')]]|[Hk Hm]]].
        -- left. split; [done|]. by right.
        -- right. left. split; [done|]. left. split; [done|]. intros [Heq|H]; done.
        -- right. left. split; [done|]. right. exists v0. split; [by right|done].
        -- right. right. split; [done|]. by right.
Qed.

End UpsertFacts.

Lemma rows_of_inner k n grouped :
  rows_of k n grouped =
  flat_map (fun '(k', entities) => if String.eqb k' k then inner_rows n entities else [])
           grouped.
Proof. reflexivity. Qed.

Lemma inner_rows_absent n (entities : list (string * list MappingRow)) :
  ~ In n (map fst entities) -> inner_rows n entities = [].
Proof.
  induction entities as [|[n0 rows] es IH]; [done|]. cbn [map fst In]. intros Hn.
  unfold inner_rows. cbn [flat_map]. fold (inner_rows n es).
  destruct (String.eqb_spec n0 n) as [->|Hne]; [tauto|]. rewrite IH; [done|tauto].
Qed.

Lemma inner_rows_upsert n n0 row (entities : list (string * list MappingRow)) :
  List.NoDup (map fst entities) ->
  inner_rows n (upsert n0 (fun rows => default [] rows ++ [row]) entities) =
  inner_rows n entities ++ (if String.eqb n0 n then [row] else []).
Proof.
  induction entities as [|[n1 rows] es IH]; cbn [upsert map fst].
  - intros _. unfold inner_rows. cbn. by destruct (String.eqb n0 n).
  - intros Hnd. apply List.NoDup_cons_iff in Hnd as [Hn1 Hes].
    destruct (String.eqb_spec n1 n0) as [->|Hne].
    + unfold inner_rows. cbn [flat_map]. fold (inner_rows n es).
      destruct (String.eqb_spec n0 n) as [->|Hne'].
      * rewrite (inner_rows_absent n es) by done. cbn [default]. by rewrite !app_nil_r.
      * by rewrite app_nil_r.
    + unfold inner_rows. cbn [flat_map].
      fold (inner_rows n es) (inner_rows n (upsert n0 (fun rows => default [] rows ++ [row]) es)).
      rewrite IH by done. by rewrite List.app_assoc.
Qed.

Lemma rows_of_absent k n (grouped : list (string * list (string * list MappingRow))) :
  ~ In k (map fst grouped) -> rows_of k n grouped = [].
Proof.
  induction grouped as [|[k0 es] g IH]; [done|]. cbn [map fst In]. intros Hk.
  rewrite rows_of_inner. cbn [flat_map]. rewrite <- rows_of_inner.
  destruct (String.eqb_spec k0 k) as [->|Hne]; [tauto|]. rewrite IH; [done|tauto].
Qed.

Lemma inner_rows_in n rows (entities : list (string * list MappingRow)) :
  List.NoDup (map fst entities) -> In (n, rows) entities -> inner_rows n entities = rows.
Proof.
  induction entities as [|[n0 rows0] es IH]; [done|]. cbn [map fst]. intros Hnd Hin.
  apply List.NoDup_cons_iff in Hnd as [Hn0 Hes].
  unfold inner_rows. cbn [flat_map]. fold (inner_rows n es).
  destruct Hin as [[= -> ->]|Hin].
  - rewrite String.eqb_refl, inner_rows_absent by done. by rewrite app_nil_r.
  - destruct (String.eqb_spec n0 n) as [->|Hne].
    + exfalso. apply Hn0. apply in_map_iff. by exists (n, rows).
    + by apply IH.
Qed.

Lemma rows_of_in k n entities rows grouped :
  well_grouped grouped -> In (k, entities) grouped -> In (n, rows) entities ->
  rows_of k n grouped = rows.
Proof.
  intros [Hnd Hgroups] Hk Hn.
  destruct (Hgroups k entities Hk) as (Hes & _ & _).
  rewrite <- (inner_rows_in n rows entities Hes Hn). clear Hgroups Hn Hes.
  induction grouped as [|[k0 es0] g IH]; [done|]. cbn [map fst] in Hnd.
  apply List.NoDup_cons_iff in Hnd as [Hk0 Hg].
  rewrite rows_of_inner. cbn [flat_map]. rewrite <- rows_of_inner.
  destruct Hk as [[= -> ->]|Hk].
  - rewrite String.eqb_refl, rows_of_absent by done. by rewrite app_nil_r.
  - destruct (String.eqb_spec k0 k) as [->|Hne].
    + exfalso. apply Hk0. apply in_map_iff. by exists (k, entities).
    + by apply IH.
Qed.

Lemma rows_of_group k n grouped row :
  In row (rows_of k n grouped) ->
  exists entities rows, In (k, entities) grouped /\ In (n, rows) entities /\ In row rows.
Proof.
  unfold rows_of. intros Hin. apply in_flat_map in Hin as ([k' es] & Hk & Hin).
  destruct (String.eqb_spec k' k) as [->|]; [|done].
  apply in_flat_map in Hin as ([n' rows] & Hn & Hin).
  destruct (String.eqb_spec n' n) as [->|]; [|done]. eauto.
Qed.

Lemma rows_of_cons k n k0 es (g : list (string * list (string * list MappingRow))) :
  rows_of k n ((k0, es) :: g) =
  (if String.eqb k0 k then inner_rows n es else []) ++ rows_of k n g.
Proof. reflexivity. Qed.

Lemma add_row_rows row grouped k n :
  well_grouped grouped ->
  rows_of k n (add_row row grouped) =
  rows_of k n grouped ++ (if same_group k n row then [row] else []).
Proof.
  intros [Hnd Hgroups]. unfold add_row, same_group.
  induction grouped as [|[k0 es] g IH]; cbn [upsert].
  - unfold rows_of. cbn.
    destruct (String.eqb (serviceKey row) k), (String.eqb (row_entityName row) n); done.
  - cbn [map fst] in Hnd. apply List.NoDup_cons_iff in Hnd as [Hk0 Hg].
    destruct (String.eqb_spec k0 (serviceKey row)) as [->|Hne].
    + rewrite !rows_of_cons. cbn [default].
      destruct (String.eqb_spec (serviceKey row) k) as [<-|Hne]; cbn [andb].
      * rewrite inner_rows_upsert by (apply (Hgroups (serviceKey row) es); by left).
        rewrite rows_of_absent by done. by rewrite !app_nil_r.
      * by rewrite app_nil_r.
    + rewrite !rows_of_cons. rewrite IH.
      * by rewrite List.app_assoc.
      * done.
      * intros k' es' Hin. apply (Hgroups k'). by right.
Qed.

Lemma add_row_well_grouped row grouped :
  well_grouped grouped -> well_grouped (add_row row grouped).
Proof.
  intros [Hnd Hgroups]. split; [by apply upsert_NoDup|].
  intros k es Hin. unfold add_row in Hin.
  apply upsert_In in Hin as [[_ Hin]|[[-> [[-> _]|(es0 & Hes0 & ->)]]|[_ Hin]]];
    try (by eapply Hgroups).
  - cbn. repeat split.
    + apply List.NoDup_cons; [intros []|constructor].
    + done.
    + intros n rows [[= <- <-]|[]]. done.
  - destruct (Hgroups _ _ Hes0) as (Hnd0 & Hne0 & Hrows0).
    change (default [] (Some es0)) with es0.
    repeat split.
    + by apply upsert_NoDup.
    + destruct es0 as [|[n0 r0] es0]; [done|]. cbn [upsert].
      destruct (String.eqb n0 (row_entityName row)); done.
    + intros n rows Hin.
      apply upsert_In in Hin as [[_ Hin]|[[-> [[-> _]|(r & Hr & ->)]]|[_ Hin]]];
        try (by eapply Hrows0); [by cbn|by destruct r].
Qed.

Lemma group_rows_fold (table : list MappingRow) grouped :
  well_grouped grouped ->
  let result := foldl (fun g row => add_row row g) grouped table in
  well_grouped result /\
  forall k n, rows_of k n result = rows_of k n grouped ++ List.filter (same_group k n) table.
Proof.
  revert grouped. induction table as [|row table IH]; intros grouped Hwg; cbn [foldl].
  - split; [done|]. intros k n. by rewrite app_nil_r.
  - destruct (IH (add_row row grouped)) as [Hwg' Hrows]; [by apply add_row_well_grouped|].
    split; [exact Hwg'|]. intros k n. rewrite Hrows, add_row_rows by done.
    cbn [List.filter]. rewrite <- List.app_assoc. by destruct (same_group k n row).
Qed.

Lemma well_grouped_nil : well_grouped [].
Proof. split; [constructor|]. intros k es []. Qed.

(** X23: the grouping of the rows for the text of the mapping table puts
    every row of the table under its service key and entity name exactly
    once: each key occurs once at both levels, and the rows under a service
    key and an entity name are the rows of the table with that key and name,
    in the order of the table, and there is at least one. *)
Theorem X23_grouping_keeps_rows (table : list MappingRow) :
  let grouped := group_rows table in
  well_grouped grouped /\
  (forall k entities n rows,
     In (k, entities) grouped -> In (n, rows) entities ->
     rows = List.filter (same_group k n) table) /\
  (forall row, In row table ->
     exists entities rows,
       In (serviceKey row, entities) grouped /\ In (row_entityName row, rows) entities /\
       In row rows).
Proof.
  intros grouped.
  destruct (group_rows_fold table [] well_grouped_nil) as [Hwg Hrows].
  change (foldl (fun g row => add_row row g) [] table) with grouped in Hwg, Hrows.
  split; [exact Hwg|]. split.
  - intros k es n rows Hk Hn. rewrite <- (rows_of_in k n es rows grouped Hwg Hk Hn).
    by rewrite Hrows.
  - intros row Hin. apply (rows_of_group (serviceKey row) (row_entityName row)).
    rewrite Hrows. cbn [app]. apply filter_In. split; [done|].
    unfold same_group. by rewrite !String.eqb_refl.
Qed.

(** ** The text of the mapping table *)

Lemma map_throwing_ok {A B} (f : A -> Thrown B) (l : list A) :
  (forall x, In x l -> exists y, f x = Ok y) ->
  exists ys, map_throwing f l = Ok ys /\ Forall2 (fun x y => f x = Ok y) l ys.
Proof.
  induction l as [|x l IH]; intros Hall.
  - exists []. split; [done|constructor].
  - destruct (Hall x) as [y Hy]; [by left|].
    destruct IH as (ys & Hys & Hall2); [intros; apply Hall; by right|].
    exists (y :: ys). cbn [map_throwing]. rewrite Hy, Hys. split; [done|by constructor].
Qed.

Lemma format_entity_ok n (rows : list MappingRow) :
  rows <> [] -> exists text, format_entity n rows = Ok text.
Proof. destruct rows; [done|]. intros _. cbn [format_entity]. eauto. Qed.

Lemma format_service_ok k (entities : list (string * list MappingRow)) :
  (forall n rows, In (n, rows) entities -> rows <> []) ->
  exists rest, format_service k entities = Ok ("SERVICE: " +:+ k +:+ rest).
Proof.
  intros Hrows. unfold format_service.
  destruct (map_throwing_ok
              (fun '(entityName, properties) => format_entity entityName properties) entities)
    as (blocks & -> & _).
  - intros [n rows] Hin. apply format_entity_ok. by eapply Hrows.
  - cbn [thrown_bind]. eauto.
Qed.

Lemma add_row_head row k es (g : list (string * list (string * list MappingRow))) :
  exists es' g', add_row row ((k, es) :: g) = (k, es') :: g'.
Proof. unfold add_row. cbn [upsert]. destruct (String.eqb k (serviceKey row)); eauto. Qed.

Lemma fold_rows_head (table : list MappingRow) k es g :
  exists es' g', foldl (fun g row => add_row row g) ((k, es) :: g) table = (k, es') :: g'.
Proof.
  revert es g. induction table as [|row table IH]; intros es g; cbn [foldl]; [eauto|].
  destruct (add_row_head row k es g) as (es' & g' & ->). apply IH.
Qed.

(** X24: the text of a mapping table is always produced (the first row of a
    group, which the loop reads, is always there); it is the words No data
    exactly for the empty table, and otherwise it starts with the heading of
    the service of the first row. *)
Theorem X24_table_text (table : list MappingRow) :
  exists text, formatMappingTableAsText table = Ok text /\
    (table = [] <-> text = "No data") /\
    (forall row rest, table = row :: rest ->
       exists tail, text = "SERVICE: " +:+ serviceKey row +:+ tail).
Proof.
  destruct table as [|row rest].
  - exists "No data". repeat split; try done.
  - destruct (group_rows_fold (row :: rest) [] well_grouped_nil) as [[Hnd Hgroups] _].
    change (foldl (fun g r => add_row r g) [] (row :: rest)) with (group_rows (row :: rest))
      in Hnd, Hgroups.
    assert (Hfirst : exists entities others,
               group_rows (row :: rest) = (serviceKey row, entities) :: others).
    { change (group_rows (row :: rest))
        with (foldl (fun g r => add_row r g) (add_row row []) rest).
      unfold add_row at 2. cbn [upsert]. apply fold_rows_head. }
    destruct Hfirst as (entities & others & Hgroup).
    destruct (map_throwing_ok
                (fun '(serviceKey, entities) => format_service serviceKey entities)
                (group_rows (row :: rest))) as (blocks & Hblocks & Hall).
    { intros [k es] Hin. destruct (format_service_ok k es) as [tail Htail]; [|eauto].
      intros n rows Hn. destruct (Hgroups k es Hin) as (_ & _ & Hrows). by eapply Hrows. }
    assert (Htext : exists tail,
               foldr append "" blocks = "SERVICE: " +:+ serviceKey row +:+ tail).
    { rewrite Hgroup in Hall. inversion Hall as [|? b ? bs Hb Hbs]; subst.
      destruct (format_service_ok (serviceKey row) entities) as [tail Htail].
      { intros n rows Hn. destruct (Hgroups (serviceKey row) entities) as (_ & _ & Hrows).
        - rewrite Hgroup. by left.
        - by eapply Hrows. }
      rewrite Htail in Hb. injection Hb as <-.
      exists (tail +:+ foldr append "" bs). cbn [foldr]. by rewrite !append_assoc. }
    destruct Htext as [tail Htext].
    exists (foldr append "" blocks). split; [|split].
    + unfold formatMappingTableAsText. cbn [is_empty length Nat.eqb]. by rewrite Hblocks.
    + rewrite Htext. split; [done|].
      change ("SERVICE: " +:+ serviceKey row +:+ tail)
        with (String "S" ("ERVICE: " +:+ serviceKey row +:+ tail)).
      discriminate.
    + intros row' rest' [= <- <-]. eauto.
Qed.

(** ** What the limit cuts *)

Lemma descending_split {A} (score : A -> Z) (l1 l2 : list A) :
  descending score (l1 ++ l2) ->
  forall x y, In x l1 -> In y l2 -> score y <= score x.
Proof.
  induction l1 as [|a l1 IH]; [done|]. cbn [app]. intros Hs x y Hx Hy.
  inversion Hs as [|? ? Hrest Hall]; subst. destruct Hx as [<-|Hx].
  - rewrite List.Forall_forall in Hall. apply Hall. apply in_or_app. by right.
  - by apply IH.
Qed.

(** X25: the limit keeps the best matches: the matches found are the
    matches shown followed by the matches cut, and no match that is cut has a
    higher score than a match that is shown. *)
Theorem X25_limit_keeps_the_best (services : list ODataService) (args : DiscoverArgs) :
  let d := searchServicesAndEntities services args in
  exists cut,
    d_sorted d = d_limitedMatches d ++ cut /\
    forall shown dropped, In shown (d_limitedMatches d) -> In dropped cut ->
      m_score dropped <= m_score shown.
Proof.
  intros d.
  assert (Hsorted : descending m_score (d_sorted d)).
  { subst d. rewrite sorted_is_sort. apply (sort_descending m_score). }
  assert (Hcut : exists n, d_limitedMatches d = firstn n (d_sorted d)).
  { subst d. rewrite limited_is_slice. unfold JsArray.slice0. eauto. }
  destruct Hcut as [n Hn]. exists (skipn n (d_sorted d)).
  assert (Hsplit : d_sorted d = d_limitedMatches d ++ skipn n (d_sorted d)).
  { rewrite Hn. symmetry. apply firstn_skipn. }
  split; [exact Hsplit|]. rewrite Hsplit in Hsorted.
  intros shown dropped. by apply descending_split.
Qed.

(** ** Key flags and key construction *)


(** ** The categories of the services resource *)

Lemma categorize_valid service c : In c (categorize service) -> In c validCategories.
Proof.
  unfold categorize.
  repeat match goal with
         | |- context [if ?b then [?t] else []] => destruct b
         end;
    cbn [app]; simpl; intuition.
Qed.

Lemma upsert_const_In {V} k (v : V) (m : list (string * V)) k' v' :
  List.NoDup (map fst m) ->
  In (k', v') (upsert k (fun _ => v) m) <->
  (k' = k /\ v' = v) \/ (k' <> k /\ In (k', v') m).
Proof.
  induction m as [|[k0 v0] m IH]; cbn [upsert map fst In].
  - intros _. split.
    + intros [[= <- <-]|[]]. by left.
    + intros [[-> ->]|[_ []]]. by left.
  - intros Hnd. apply List.NoDup_cons_iff in Hnd as [Hk0 Hm].
    destruct (String.eqb_spec k0 k) as [->|Hne]; cbn [In].
    + split.
      * intros [[= <- <-]|Hin]; [by left|]. right. split; [|by right].
        intros ->. apply Hk0. apply in_map_iff. by exists (k, v').
      * intros [[-> ->]|[Hk [[= -> ->]|Hin]]]; [by left|done|by right].
    + rewrite (IH Hm). split.
      * intros [[= <- <-]|[H|H]]; [right; split; [done|by left]|by left|].
        right. split; [tauto|]. right. tauto.
      * intros [H|[Hk [[= <- <-]|Hin]]]; [right; by left|by left|]. right. right. done.
Qed.

Lemma entries_agree (services : list ODataService) :
  let entries := serviceCategories_entries services in
  List.NoDup (map fst entries) /\
  forall id cs, In (id, cs) entries <-> serviceCategories services !! id = Some cs.
Proof.
  unfold serviceCategories_entries, serviceCategories, categorizeServices.
  assert (Hgen : forall l (m : list (string * list string)) (g : gmap string (list string)),
             List.NoDup (map fst m) ->
             (forall id cs, In (id, cs) m <-> g !! id = Some cs) ->
             List.NoDup (map fst (foldl (fun m s => upsert (svc_id s) (fun _ => categorize s) m) m l)) /\
             forall id cs,
               In (id, cs) (foldl (fun m s => upsert (svc_id s) (fun _ => categorize s) m) m l) <->
               foldl (fun m s => <[svc_id s := categorize s]> m) g l !! id = Some cs).
  { induction l as [|s l IH]; intros m g Hnd Hag; cbn [foldl]; [done|].
    apply IH; [by apply upsert_NoDup|].
    intros id cs. rewrite upsert_const_In by done. rewrite lookup_insert_Some, Hag.
    split; intros [[-> ->]|[Hne H]]; (by left) || (right; by split). }
  apply Hgen; [constructor|]. intros id cs. rewrite lookup_empty. split; [intros []|done].
Qed.

Lemma dedupe_fold (xs seen : list string) :
  List.NoDup seen ->
  let result := foldl (fun seen x => if mem x seen then seen else seen ++ [x]) seen xs in
  List.NoDup result /\ forall x, In x result <-> In x seen \/ In x xs.
Proof.
  revert seen. induction xs as [|y xs IH]; intros seen Hnd; cbn [foldl].
  - split; [done|]. intros x. simpl. tauto.
  - destruct (mem y seen) eqn:Hm.
    + destruct (IH seen Hnd) as [Hnd' Hin]. split; [done|].
      intros x. rewrite Hin. apply mem_In in Hm. simpl. split; [tauto|].
      intros [H|[<-|H]]; tauto.
    + assert (Hy : ~ In y seen) by (intros H; apply mem_In in H; congruence).
      destruct (IH (seen ++ [y])) as [Hnd' Hin].
      { apply Permutation_NoDup with (l := y :: seen).
        - apply Permutation_cons_append.
        - by apply List.NoDup_cons. }
      split; [done|]. intros x. rewrite Hin, in_app_iff. simpl. tauto.
Qed.

(** X27: the categories listed by the resource of the services are each
    listed once, each is one of the seven valid categories, and a category
    is listed exactly when it is among the categories kept for some service
    of the catalog; the resource counts and lists every service of the
    catalog, in catalog order. *)
Theorem X27_resource_categories (services : list ODataService) :
  let resource := services_resource services in
  List.NoDup (res_categories resource) /\
  (forall c, In c (res_categories resource) -> In c validCategories) /\
  (forall c, In c (res_categories resource) <->
     exists svc, In svc services /\ In c (categories_of services svc)) /\
  res_totalServices resource = length (res_services resource) /\
  map ss_id (res_services resource) = map svc_id services.
Proof.
  intros resource.
  destruct (entries_agree services) as [Hnd Hag].
  destruct (dedupe_fold (flat_map snd (serviceCategories_entries services)) [])
    as [Hdd Hin]; [constructor|].
  change (foldl _ [] (flat_map snd (serviceCategories_entries services)))
    with (res_categories resource) in Hdd, Hin.
  assert (Hlisted : forall c, In c (res_categories resource) <->
            exists svc, In svc services /\ In c (categories_of services svc)).
  { intros c. rewrite Hin. split.
    - intros [[]|Hc]. apply in_flat_map in Hc as ([id cs] & Hentry & Hc).
      apply Hag in Hentry. pose proof Hentry as Hlookup.
      unfold serviceCategories, categorizeServices in Hentry.
      rewrite categories_fold_lookup, lookup_empty in Hentry.
      destruct (last_with_id id services) as [s|] eqn:Hlast; [|done].
      apply last_with_id_Some in Hlast as [Hs Hid]. exists s. split; [done|].
      unfold categories_of. rewrite Hid, Hlookup. exact Hc.
    - intros (svc & Hsvc & Hc). right. unfold categories_of in Hc.
      destruct (serviceCategories services !! svc_id svc) as [cs|] eqn:Hlookup; [|done].
      apply in_flat_map. exists (svc_id svc, cs). split; [by apply Hag|exact Hc]. }
  split; [exact Hdd|]. split; [|split; [exact Hlisted|]].
  - intros c Hc. apply Hlisted in Hc as (svc & Hsvc & Hc).
    unfold categories_of in Hc.
    destruct (serviceCategories services !! svc_id svc) as [cs|] eqn:Hlookup; [|done].
    unfold serviceCategories, categorizeServices in Hlookup.
    rewrite categories_fold_lookup, lookup_empty in Hlookup.
    destruct (last_with_id (svc_id svc) services) as [s|]; [|done].
    injection Hlookup as <-. by eapply categorize_valid.
  - subst resource. cbn [services_resource res_totalServices res_services].
    rewrite length_map, map_map. done.
Qed.
